(** * WikiGPT question-answering pipeline

    A shallow embedding of the [/api/wikipedia/process] route and of the
    helper functions it calls: [attemptSpellCorrection],
    [correctCommonMisspellings], [generateWikipediaResponse],
    [extractRelevantContent], [generateConversationalResponse],
    [detectQuestionType], [makeContentConversational] and
    [generateNoResultResponse]; of the [/api/wikipedia/search] and
    [/api/wikipedia/article] routes of the same module; of the
    [WikipediaAPI] client class that calls them; and of the assistant
    message built by [sendMessage] of the [useChat] hook, with its
    [generateFallbackResponse].

    Modelling conventions.
    - JavaScript strings are modelled as Rocq [string]s, one [ascii] per
      character; text is taken to be ASCII, so [toLowerCase], [trim] and the
      regular-expression class [\s] are their ASCII restrictions, and
      [length] is the number of characters.
    - [Math.random()] returns a double [k / 2^53] with [0 <= k < 2^53]; the
      random source is a list of such [k] (read modulo [2^53], [0] once the
      list is exhausted) consumed one value per call.
    - The external Wikipedia service is a deterministic oracle: one function
      per endpoint (search, opensearch, page content) from the query string to
      the outcome of [await fetch(..); await r.json()].
    - The handler runs in a state and exception monad: the state holds the
      random source, the log of outgoing HTTP requests and (as ghost state)
      the passages chosen by [extractRelevantContent]; [throw] is the
      exception, caught by the handler's [catch] block.
    - [processingTime] (wall-clock time) is not modelled. *)

From Stdlib Require Import String Ascii List Arith Lia ZArith Bool.
From Stdlib Require Import Permutation Sorting.Sorted.
Import ListNotations.
Open Scope string_scope.
Open Scope nat_scope.

(** ** String primitives *)

Module Str.

Definition char_code (c : ascii) : nat := nat_of_ascii c.

(** [toLowerCase] on ASCII: [A-Z] to [a-z]. *)
Definition lower_char (c : ascii) : ascii :=
  let n := nat_of_ascii c in
  if (65 <=? n) && (n <=? 90) then ascii_of_nat (n + 32) else c.

Fixpoint toLowerCase (s : string) : string :=
  match s with
  | EmptyString => EmptyString
  | String c s' => String (lower_char c) (toLowerCase s')
  end.

(** The regular-expression class [\s] (and the characters [trim] removes)
    on ASCII: tab, line feed, vertical tab, form feed, carriage return,
    space. *)
Definition is_space (c : ascii) : bool :=
  let n := nat_of_ascii c in
  ((9 <=? n) && (n <=? 13)) || (n =? 32).

Fixpoint trim_start (s : string) : string :=
  match s with
  | EmptyString => EmptyString
  | String c s' => if is_space c then trim_start s' else s
  end.

Fixpoint rev_str (s : string) (acc : string) : string :=
  match s with
  | EmptyString => acc
  | String c s' => rev_str s' (String c acc)
  end.

Definition trim (s : string) : string :=
  rev_str (trim_start (rev_str (trim_start s) EmptyString)) EmptyString.

(** [s.startsWith(p)]. *)
Fixpoint startsWith (s p : string) {struct p} : bool :=
  match p, s with
  | EmptyString, _ => true
  | String c p', String d s' => Ascii.eqb c d && startsWith s' p'
  | String _ _, EmptyString => false
  end.

(** [s.includes(w)]. *)
Fixpoint includes (s w : string) : bool :=
  startsWith s w ||
  match s with
  | EmptyString => false
  | String _ s' => includes s' w
  end.

(** [xs.join(sep)]. *)
Fixpoint join (sep : string) (xs : list string) : string :=
  match xs with
  | [] => EmptyString
  | [x] => x
  | x :: xs' => x ++ sep ++ join sep xs'
  end.

(** [s.split(d)] for a one-character separator [d]. *)
Fixpoint split_char_aux (d : ascii) (s cur : string) : list string :=
  match s with
  | EmptyString => [cur]
  | String c s' =>
      if Ascii.eqb c d then cur :: split_char_aux d s' EmptyString
      else split_char_aux d s' (cur ++ String c EmptyString)
  end.

Definition split_char (d : ascii) (s : string) : list string :=
  split_char_aux d s EmptyString.

(** [s.split(/[cls]+/)]: splitting on maximal runs of characters of the
    class [cls]; [in_run] records that the previous character was a
    separator, so a run yields one split point. *)
Fixpoint split_runs_aux (cls : ascii -> bool) (s cur : string) (in_run : bool)
  : list string :=
  match s with
  | EmptyString => [cur]
  | String c s' =>
      if cls c then
        if in_run then split_runs_aux cls s' cur true
        else cur :: split_runs_aux cls s' EmptyString true
      else split_runs_aux cls s' (cur ++ String c EmptyString) false
  end.

Definition split_runs (cls : ascii -> bool) (s : string) : list string :=
  split_runs_aux cls s EmptyString false.

(** Decimal rendering of a non-negative integer (template-literal
    interpolation of an HTTP status). *)
Fixpoint dec_aux (fuel n : nat) (acc : string) : string :=
  match fuel with
  | O => acc
  | S f =>
      let d := String (ascii_of_nat (48 + n mod 10)) acc in
      if n <? 10 then d else dec_aux f (n / 10) d
  end.

Definition nat_to_dec (n : nat) : string := dec_aux (S n) n EmptyString.

End Str.

Import Str.

Definition nl : string := String (ascii_of_nat 10) EmptyString.
Definition blank_line : string := nl ++ nl.

(** ** Relevance extractor: [extractRelevantContent] *)

Module Relevance.

(** [question.toLowerCase().split(/\s+/).filter(word => word.length > 3)] *)
Definition queryWords (question : string) : list string :=
  filter (fun w => 3 <? String.length w) (split_runs is_space (toLowerCase question)).

(** The [forEach] loop computing the score of one paragraph. *)
Definition score (queryWords : list string) (paragraph : string) : nat :=
  let lowerParagraph := toLowerCase paragraph in
  fold_left
    (fun score word =>
       if includes lowerParagraph word
       then score + (if 3 <? String.length word then 2 else 1)
       else score)
    queryWords 0.

Record Scored := { sc_paragraph : string; sc_score : nat }.

(** [Array.prototype.sort] with comparator [(a, b) => b.score - a.score]:
    a stable sort by descending score (insertion sort; an element is put
    before the first element whose score it reaches, so of two elements of
    equal score the earlier one stays first). *)
Fixpoint insert_desc (x : Scored) (l : list Scored) : list Scored :=
  match l with
  | [] => [x]
  | y :: l' => if sc_score y <=? sc_score x then x :: l else y :: insert_desc x l'
  end.

Fixpoint sort_desc (l : list Scored) : list Scored :=
  match l with
  | [] => []
  | x :: l' => insert_desc x (sort_desc l')
  end.

Definition extractRelevantContent (paragraphs : list string) (question : string)
  : string :=
  let qw := queryWords question in
  let scoredParagraphs :=
    map (fun p => {| sc_paragraph := trim p; sc_score := score qw p |}) paragraphs in
  let selectedParagraphs := firstn 3 (sort_desc scoredParagraphs) in
  let fallback := join blank_line (firstn 2 paragraphs) in
  match selectedParagraphs with
  | [] => fallback
  | top :: _ =>
      if sc_score top =? 0 then fallback
      else join blank_line (map sc_paragraph selectedParagraphs)
  end.

(** [extract.split('\n').filter(p => p.trim().length > 50)] in
    [generateWikipediaResponse]. *)
Definition paragraphs_of (extract : string) : list string :=
  filter (fun p => 50 <? String.length (trim p)) (split_char (ascii_of_nat 10) extract).

End Relevance.

(** ** Static misspelling dictionary: [correctCommonMisspellings] *)

Module Spelling.

(** The [corrections] object, in its (insertion) key order, which is the
    order of [Object.entries]. *)
Definition corrections : list (string * string) :=
  [ ("phisics", "physics"); ("chemestry", "chemistry"); ("biology", "biology");
    ("psycology", "psychology"); ("psichology", "psychology");
    ("philosphy", "philosophy"); ("mathamatics", "mathematics");
    ("algorythm", "algorithm"); ("artficial", "artificial");
    ("inteligence", "intelligence"); ("quantem", "quantum");
    ("quantam", "quantum");
    ("histery", "history"); ("ancent", "ancient"); ("medeval", "medieval");
    ("rennaissance", "renaissance"); ("napoleen", "napoleon");
    ("shakespeare", "shakespeare"); ("einstien", "einstein");
    ("davinci", "da vinci");
    ("geograpy", "geography"); ("contry", "country"); ("counrty", "country");
    ("mountian", "mountain"); ("oceean", "ocean"); ("desert", "desert");
    ("forrest", "forest");
    ("tecnology", "technology"); ("compuer", "computer");
    ("programing", "programming"); ("sofware", "software");
    ("hardwar", "hardware"); ("intrnet", "internet"); ("websit", "website");
    ("becuase", "because"); ("recieve", "receive"); ("seperate", "separate");
    ("definately", "definitely"); ("occured", "occurred");
    ("begining", "beginning"); ("goverment", "government");
    ("enviroment", "environment") ].

(** The regular-expression class [\w]: [A-Za-z0-9_]. *)
Definition is_word (c : ascii) : bool :=
  let n := nat_of_ascii c in
  ((48 <=? n) && (n <=? 57)) || ((65 <=? n) && (n <=? 90))
  || ((97 <=? n) && (n <=? 122)) || (n =? 95).

(** Case-insensitive prefix test (the [i] flag). *)
Fixpoint startsWith_ci (s p : string) {struct p} : bool :=
  match p, s with
  | EmptyString, _ => true
  | String c p', String d s' =>
      Ascii.eqb (lower_char c) (lower_char d) && startsWith_ci s' p'
  | String _ _, EmptyString => false
  end.

(** The closing [\b] of [\bwrong\b]: the character after the match, if any,
    is not a word character ([wrong] ends with a letter). *)
Definition ends_word (s : string) (len : nat) : bool :=
  match String.get len s with
  | None => true
  | Some c => negb (is_word c)
  end.

(** Whether [\bw\b] matches at the start of [s], [prev_word] being whether
    the character before is a word character ([w] starts with a letter). *)
Definition match_at (w : string) (prev_word : bool) (s : string) : bool :=
  negb prev_word && startsWith_ci s w && ends_word s (String.length w).

(** [s.replace(new RegExp(`\\b${w}\\b`, 'gi'), r)]: a left-to-right scan;
    after a match the [skip] remaining characters of the match are consumed
    without output and the scan resumes after it. *)
Fixpoint replace_word (w r : string) (prev_word : bool) (skip : nat) (s : string)
  : string :=
  match s with
  | EmptyString => EmptyString
  | String c s' =>
      match skip with
      | S k => replace_word w r (is_word c) k s'
      | O =>
          if match_at w prev_word s
          then r ++ replace_word w r (is_word c) (String.length w - 1) s'
          else String c (replace_word w r (is_word c) 0 s')
      end
  end.

Definition regex_replace_word (s w r : string) : string :=
  replace_word w r false 0 s.

Definition correctCommonMisspellings (query : string) : string :=
  fold_left (fun corrected '(wrong, right_) => regex_replace_word corrected wrong right_)
    corrections (toLowerCase query).

(** [\bw\b] (case-insensitive) matches somewhere in [s]. *)
Fixpoint occurs_word (w : string) (prev_word : bool) (s : string) : bool :=
  match_at w prev_word s ||
  match s with
  | EmptyString => false
  | String c s' => occurs_word w (is_word c) s'
  end.

(** No key of the dictionary occurs as a whole word in [s]. *)
Definition no_known_misspelling (s : string) : bool :=
  forallb (fun '(wrong, _) => negb (occurs_word wrong false s)) corrections.

End Spelling.

(** ** The external service, the handler's effects and its monad *)

Module Pipeline.

Import Relevance Spelling.

(** An element of [data.query.search]: only [title] is read by the route. *)
Record Candidate := { cand_title : string; cand_snippet : string }.

(** A page of [data.query.pages]; a missing title comes back under the key
    ["-1"] with no [extract]. *)
Record Page := {
  page_title : string;
  page_extract : option string;
  page_fullurl : option string }.

(** Outcome of [const r = await fetch(url); const data = await r.json()]:
    either one of the two awaits throws (with its error message) or the
    response arrives with its [ok] flag, [status] and decoded body. *)
Inductive Outcome (A : Type) : Type :=
| Rejected (message : string)
| Responded (ok : bool) (status : nat) (body : A).
Arguments Rejected {A} message.
Arguments Responded {A} ok status body.

(** The Wikipedia API as a deterministic oracle.
    - search: [data.query?.search || []];
    - opensearch: [data[1][0]] ([None] when [data], [data[1]] or
      [data[1][0]] is missing);
    - content: the entries of [data.query?.pages || {}] in key order. *)
Record Oracle := {
  o_search : string -> Outcome (list Candidate);
  o_opensearch : string -> Outcome (option string);
  o_content : string -> Outcome (list (string * Page)) }.

Inductive Request :=
| ReqSearch (query : string)
| ReqOpensearch (query : string)
| ReqContent (title : string).

(** Validation failures reported by [z.string().min(1).max(1000)]. *)
Inductive ZodIssue := TooSmall | TooBig.

(** Exceptions reaching the handler's [catch]: a [ZodError] from
    [parse], or an [Error] with its message. *)
Inductive Exn :=
| EValidation (issue : ZodIssue)
| EError (message : string).

(** Handler state: the random source, the log of HTTP requests sent, and
    (ghost) the passages selected by [extractRelevantContent]. *)
Record St := { st_rng : list Z; st_calls : list Request; st_passages : list string }.

Inductive Result (A : Type) : Type :=
| Ok (a : A)
| Throw (e : Exn).
Arguments Ok {A} a.
Arguments Throw {A} e.

Definition M (A : Type) : Type := St -> Result A * St.

Definition ret {A} (a : A) : M A := fun s => (Ok a, s).

Definition bind {A B} (m : M A) (k : A -> M B) : M B :=
  fun s => match m s with
           | (Ok a, s') => k a s'
           | (Throw e, s') => (Throw e, s')
           end.

Definition throw {A} (e : Exn) : M A := fun s => (Throw e, s).

(** [try { m } catch (error) { h(error) }] *)
Definition catch {A} (m : M A) (h : Exn -> M A) : M A :=
  fun s => match m s with
           | (Throw e, s') => h e s'
           | r => r
           end.

Notation "x <- c1 ;; c2" := (bind c1 (fun x => c2))
  (at level 61, c1 at next level, right associativity).

Fixpoint mapM {A B} (f : A -> M B) (l : list A) : M (list B) :=
  match l with
  | [] => ret []
  | x :: l' => y <- f x ;; ys <- mapM f l' ;; ret (y :: ys)
  end.

Definition push (s : St) (r : Request) : St :=
  {| st_rng := st_rng s; st_calls := st_calls s ++ [r]; st_passages := st_passages s |}.

Definition log_request (r : Request) : M unit := fun s => (Ok tt, push s r).

Definition record_passage (p : string) : M unit :=
  fun s => (Ok tt, {| st_rng := st_rng s; st_calls := st_calls s;
                      st_passages := st_passages s ++ [p] |}).

(** [Math.random()]: the next value [k] of the source, read as [k / 2^53]. *)
Definition two53 : Z := Z.pow 2 53.

Definition draw : M Z :=
  fun s => match st_rng s with
           | [] => (Ok 0%Z, s)
           | k :: ks => (Ok (Z.modulo k two53),
                         {| st_rng := ks; st_calls := st_calls s;
                            st_passages := st_passages s |})
           end.

(** [Math.floor(Math.random() * n)] *)
Definition rand_index (n : nat) : M nat :=
  k <- draw ;; ret (Z.to_nat (Z.div (k * Z.of_nat n) two53)).

(** [Math.random() > num / den] *)
Definition rand_gt (num den : Z) : M bool :=
  k <- draw ;; ret (Z.ltb (num * two53) (k * den)).

(** [await fetch(url); await response.json()] for each endpoint; a
    rejection of either await is thrown as an [Error]. *)
Definition await_outcome {A} (o : Outcome A) : M (bool * nat * A) :=
  match o with
  | Rejected m => throw (EError m)
  | Responded ok st b => ret (ok, st, b)
  end.

Definition fetch_search (O : Oracle) (q : string) : M (bool * nat * list Candidate) :=
  _ <- log_request (ReqSearch q) ;; await_outcome (o_search O q).

Definition fetch_content (O : Oracle) (title : string)
  : M (bool * nat * list (string * Page)) :=
  _ <- log_request (ReqContent title) ;; await_outcome (o_content O title).

(** ** Response text *)

Definition dq : string := String (ascii_of_nat 34) EmptyString.
Definition bullet : string := "â€¢ ".

Definition encouragingResponses : list string :=
  [ "Hmm, I couldn't find specific information about that topic on Wikipedia.";
    "That's a tricky one! I wasn't able to locate relevant Wikipedia articles for that question.";
    "Interesting question, but I'm having trouble finding Wikipedia content that matches what you're looking for.";
    "I searched through Wikipedia but couldn't find detailed information on that specific topic." ].

Definition generateNoResultResponse (question : string) : M string :=
  i <- rand_index (length encouragingResponses) ;;
  let response := nth i encouragingResponses EmptyString in
  ret (response ++ nl ++ nl
       ++ "**Here are some ways we can try to get better results:**" ++ nl
       ++ bullet ++ "Try rephrasing with different keywords or terms" ++ nl
       ++ bullet ++ "Check if it might be a very recent topic (Wikipedia might not have coverage yet)" ++ nl
       ++ bullet ++ "Consider asking about a broader or more general version of the topic" ++ nl
       ++ bullet ++ "Make sure the topic has an established Wikipedia page" ++ nl
       ++ nl
       ++ "**Your search:** " ++ dq ++ question ++ dq ++ nl
       ++ nl
       ++ "Feel free to try asking in a different way - I'm here to help!").

Inductive QuestionType := QWhat | QHow | QWhy | QWhen | QCompare | QGeneral.

Definition detectQuestionType (question : string) : QuestionType :=
  let q := toLowerCase question in
  if startsWith q "what" || includes q "what is" || includes q "what are" then QWhat
  else if startsWith q "how" || includes q "how does" || includes q "how to" then QHow
  else if startsWith q "why" || includes q "why is" || includes q "why does" then QWhy
  else if startsWith q "when" || includes q "when did" || includes q "when was" then QWhen
  else if includes q "compare" || includes q "difference" || includes q "vs" then QCompare
  else QGeneral.

Definition conversationalIntros : list string :=
  [ "Great question! Let me tell you about"; "I'd be happy to explain";
    "Here's what I can share about";
    "That's an interesting topic! From what I know,";
    "Let me break this down for you -"; "This is a fascinating subject!" ].

Definition sentenceConnectors : list string :=
  [ "Essentially, "; "In simple terms, "; "Basically, "; "Put simply, ";
    "Here's the thing - "; "What's interesting is that " ].

Definition joinConnectors : list string :=
  [ ". "; ". Additionally, "; ". Also, "; ". What's more, "; ". Interestingly, " ].

Definition conclusions : list string :=
  [ nl ++ nl ++ "Hope this helps clarify things!";
    nl ++ nl ++ "Pretty fascinating stuff, right?";
    nl ++ nl ++ "There's definitely more to explore on this topic!";
    nl ++ nl ++ "Let me know if you'd like to dive deeper into any aspect!";
    nl ++ nl ++ "This is just scratching the surface - there's so much more to discover!" ].

(** The character class of [/[.!?]+/]. *)
Definition is_sentence_end (c : ascii) : bool :=
  let n := nat_of_ascii c in (n =? 46) || (n =? 33) || (n =? 63).

(** The per-sentence callback of [makeContentConversational]; the second
    [Math.random()] is drawn only when [sentence.length > 100]. *)
Definition rephrase_sentence (sentence0 : string) : M string :=
  let sentence := trim sentence0 in
  addConnector <- rand_gt 7 10 ;;
  sentence <- (if addConnector
               then i <- rand_index (length sentenceConnectors) ;;
                    ret (nth i sentenceConnectors EmptyString ++ toLowerCase sentence)
               else ret sentence) ;;
  if 100 <? String.length sentence
  then emph <- rand_gt 1 2 ;;
       ret (if emph then "**" ++ sentence ++ "**" else sentence)
  else ret sentence.

Definition makeContentConversational (content : string) (questionType : QuestionType)
  : M string :=
  let sentences := filter (fun s => 10 <? String.length (trim s))
                          (split_runs is_sentence_end content) in
  processedSentences <- mapM rephrase_sentence (firstn 4 sentences) ;;
  i <- rand_index (length joinConnectors) ;;
  ret (join (nth i joinConnectors EmptyString) processedSentences).

Definition generateConversationalResponse (question title content : string)
  : M string :=
  let questionType := detectQuestionType question in
  i <- rand_index (length conversationalIntros) ;;
  let intro := nth i conversationalIntros EmptyString in
  let response :=
    match questionType with
    | QWhat => intro ++ " **" ++ title ++ "**." ++ nl ++ nl
    | QHow => intro ++ " Here's how " ++ toLowerCase title ++ " works:" ++ nl ++ nl
    | QWhy => intro ++ " The reasoning behind " ++ toLowerCase title ++ ":" ++ nl ++ nl
    | QWhen => intro ++ " Looking at the timeline of " ++ toLowerCase title ++ ":" ++ nl ++ nl
    | _ => intro ++ " **" ++ title ++ "**:" ++ nl ++ nl
    end in
  processedContent <- makeContentConversational content questionType ;;
  j <- rand_index (length conclusions) ;;
  ret (response ++ processedContent ++ nth j conclusions EmptyString).

(** [encodeURIComponent] on ASCII: unreserved characters are kept, every
    other character becomes [%XX] (upper-case hexadecimal). *)
Definition hex_digit (n : nat) : ascii :=
  if n <? 10 then ascii_of_nat (48 + n) else ascii_of_nat (55 + n).

Definition is_unreserved (c : ascii) : bool :=
  is_word c || existsb (fun d => nat_of_ascii c =? d) [45; 46; 33; 126; 42; 39; 40; 41].

Fixpoint encodeURIComponent (s : string) : string :=
  match s with
  | EmptyString => EmptyString
  | String c s' =>
      if is_unreserved c then String c (encodeURIComponent s')
      else String (ascii_of_nat 37)
             (String (hex_digit (nat_of_ascii c / 16))
                (String (hex_digit (nat_of_ascii c mod 16)) (encodeURIComponent s')))
  end.

(** [title.replace(/ /g, '_')] *)
Fixpoint spaces_to_underscores (s : string) : string :=
  match s with
  | EmptyString => EmptyString
  | String c s' =>
      String (if nat_of_ascii c =? 32 then ascii_of_nat 95 else c)
             (spaces_to_underscores s')
  end.

(** JavaScript truthiness of an optional string field. *)
Definition truthy (o : option string) : option string :=
  match o with
  | Some EmptyString | None => None
  | Some s => Some s
  end.

Definition wiki_base : string := "https://en.wikipedia.org/wiki/".

Definition article_url (article : Page) : string :=
  match truthy (page_fullurl article) with
  | Some u => u
  | None => wiki_base ++ encodeURIComponent (spaces_to_underscores (page_title article))
  end.

Definition sources_header : string := "**ðŸ“š Sources & Further Reading:**".
Definition related_header : string := "**ðŸ”— You might also be interested in:** ".

Definition source_bullet (title url : string) : string :=
  bullet ++ "[" ++ title ++ " on Wikipedia](" ++ url ++ ")".

Definition generateWikipediaResponse (question : string) (article : option Page)
  (searchResults : list Candidate) : M string :=
  match article with
  | None => generateNoResultResponse question
  | Some a =>
      match truthy (page_extract a) with
      | None => generateNoResultResponse question
      | Some extract =>
          let title := page_title a in
          let url := article_url a in
          let paragraphs := paragraphs_of extract in
          let relevantContent := extractRelevantContent paragraphs question in
          _ <- record_passage relevantContent ;;
          conversationalResponse <-
            generateConversationalResponse question title relevantContent ;;
          let response := conversationalResponse ++ nl ++ nl
                          ++ sources_header ++ nl
                          ++ source_bullet title url ++ nl in
          ret (if 1 <? length searchResults
               then response ++ nl ++ related_header
                    ++ join ", " (map cand_title (firstn 2 (skipn 1 searchResults)))
               else response)
      end
  end.

(** ** Spelling fallback: [attemptSpellCorrection] *)

(** The value returned by [attemptSpellCorrection] for a given opensearch
    outcome: the [catch] returns [query] when [fetch] or [json()] throws;
    otherwise a truthy [data[1][0]] is returned, and else the dictionary. *)
Definition spell_result (o : Outcome (option string)) (query : string) : string :=
  match o with
  | Rejected _ => query
  | Responded _ _ suggestion =>
      match truthy suggestion with
      | Some s => s
      | None => correctCommonMisspellings query
      end
  end.

Definition attemptSpellCorrection (O : Oracle) (query : string) : M string :=
  _ <- log_request (ReqOpensearch query) ;;
  ret (spell_result (o_opensearch O query) query).

(** ** The [/api/wikipedia/process] handler *)

Record Response := {
  resp_success : bool;
  resp_response : option string;
  resp_sources : option (list string);
  resp_error : option Exn }.

(** [z.object({ question: z.string().min(1).max(1000) }).parse(req.body)] *)
Definition validate (question : string) : M string :=
  if String.length question =? 0 then throw (EValidation TooSmall)
  else if 1000 <? String.length question then throw (EValidation TooBig)
  else ret question.

(** [const pages = contentData.query?.pages || {};
     const article = pages[Object.keys(pages)[0]];] *)
Definition first_page (pages : list (string * Page)) : option Page :=
  match pages with
  | [] => None
  | (_, p) :: _ => Some p
  end.

(** [if (searchResults.length === 0) { ... }]: the spelling fallback and
    the second search (whose [ok] flag is not inspected). *)
Definition retry_search (O : Oracle) (question : string)
  (searchResults0 : list Candidate) : M (list Candidate) :=
  match searchResults0 with
  | [] =>
      correctedQuery <- attemptSpellCorrection O question ;;
      if negb (String.eqb correctedQuery question)
      then r2 <- fetch_search O correctedQuery ;;
           let '(_, _, searchResults2) := r2 in ret searchResults2
      else ret searchResults0
  | _ => ret searchResults0
  end.

(** From [if (searchResults.length === 0) return res.json(...)] to the
    final [res.json(...)]. *)
Definition answer (O : Oracle) (question : string) (searchResults : list Candidate)
  : M Response :=
  match searchResults with
  | [] =>
      response <- generateNoResultResponse question ;;
      ret {| resp_success := true; resp_response := Some response;
             resp_sources := Some []; resp_error := None |}
  | bestMatch :: _ =>
      c <- fetch_content O (cand_title bestMatch) ;;
      let '(cok, cstatus, pages) := c in
      if negb cok
      then throw (EError ("Wikipedia content fetch failed: " ++ nat_to_dec cstatus))
      else
      let article := first_page pages in
      response <- generateWikipediaResponse question article searchResults ;;
      let sources := map cand_title searchResults in
      ret {| resp_success := true; resp_response := Some response;
             resp_sources := Some sources; resp_error := None |}
  end.

(** The body of the [try] block. *)
Definition process_body (O : Oracle) (body_question : string) : M Response :=
  question <- validate body_question ;;
  r <- fetch_search O question ;;
  let '(ok, status, searchResults0) := r in
  if negb ok then throw (EError ("Wikipedia search failed: " ++ nat_to_dec status))
  else
  searchResults <- retry_search O question searchResults0 ;;
  answer O question searchResults.

(** The [catch] block: [{ success: false, error: error.message }]. *)
Definition failure (e : Exn) : Response :=
  {| resp_success := false; resp_response := None; resp_sources := None;
     resp_error := Some e |}.

Definition processQuestion (O : Oracle) (question : string) : M Response :=
  catch (process_body O question) (fun e => ret (failure e)).

Definition init (rng : list Z) : St :=
  {| st_rng := rng; st_calls := []; st_passages := [] |}.

(** One request: the handler's response and final state. *)
Definition run (O : Oracle) (rng : list Z) (question : string) : Response * St :=
  match processQuestion O question (init rng) with
  | (Ok r, s) => (r, s)
  | (Throw e, s) => (failure e, s)
  end.

(** The query of the fallback search: what [attemptSpellCorrection]
    returns for [question]. *)
Definition fallback_query (O : Oracle) (question : string) : string :=
  spell_result (o_opensearch O question) question.

(** [produced O q rs]: the search call whose non-empty candidate list [rs]
    the handler goes on with, either the original search or, after an empty
    original search, the fallback search with a different query. *)
Inductive produced (O : Oracle) (q : string) : list Candidate -> Prop :=
| produced_original status c cs :
    o_search O q = Responded true status (c :: cs) -> produced O q (c :: cs)
| produced_fallback status ok status' c cs :
    o_search O q = Responded true status [] ->
    fallback_query O q <> q ->
    o_search O (fallback_query O q) = Responded ok status' (c :: cs) ->
    produced O q (c :: cs).

End Pipeline.

(** ** Concrete service behaviours *)

Module Scenarios.

Import Pipeline.

(** The service is unreachable: every [fetch] rejects. *)
Definition O_down : Oracle := {|
  o_search := fun _ => Rejected "fetch failed";
  o_opensearch := fun _ => Rejected "fetch failed";
  o_content := fun _ => Rejected "fetch failed" |}.

(** Search finds one candidate, but the content query for its title comes
    back with the missing-page sentinel ([pages = { "-1": { title, missing } }]). *)
Definition O_missing_page : Oracle := {|
  o_search := fun _ => Responded true 200
                [{| cand_title := "Quantum computing"; cand_snippet := "" |}];
  o_opensearch := fun _ => Responded true 200 None;
  o_content := fun t => Responded true 200
                [("-1", {| page_title := t; page_extract := None;
                           page_fullurl := None |})] |}.

(** Nothing matches: every search is empty and there is no suggestion. *)
Definition O_empty : Oracle := {|
  o_search := fun _ => Responded true 200 [];
  o_opensearch := fun _ => Responded true 200 None;
  o_content := fun _ => Responded true 200 [] |}.

(** The spec's worked example: one candidate whose article mentions
    "quantum" in its second paragraph only. *)
Definition quantum_page : Page := {|
  page_title := "Quantum computing";
  page_extract := Some ("Computers of the classical kind process bits that are either zero or one."
                        ++ nl ++
                        "Quantum computing is a type of computation that uses qubits and superposition.");
  page_fullurl := Some "https://en.wikipedia.org/wiki/Quantum_computing" |}.

Definition O_quantum : Oracle := {|
  o_search := fun _ => Responded true 200
                [{| cand_title := "Quantum computing"; cand_snippet := "" |};
                 {| cand_title := "Quantum mechanics"; cand_snippet := "" |}];
  o_opensearch := fun _ => Responded true 200 None;
  o_content := fun _ => Responded true 200 [("25220", quantum_page)] |}.

Definition st0 : St := init [].

End Scenarios.

(** ** The other routes and the client API *)

(** The [/api/wikipedia/search] and [/api/wikipedia/article] routes of the
    routes module, and the [WikipediaAPI] client class that calls the
    routes (and, for its [*Direct] methods, Wikipedia itself). These code
    paths use no randomness: each is a function from the service's answers
    to the response and the list of Wikipedia requests sent. *)

Module Routes.

Import Pipeline.

(** A search hit as the search route passes it on. *)
Record SearchHit := {
  hit_title : string; hit_snippet : string; hit_pageid : nat;
  hit_size : nat; hit_wordcount : nat; hit_timestamp : string }.

(** A page of [data.query.pages] for the article queries;
    [ap_categories] is [page.categories?.map(cat => cat.title)]. *)
Record ArticlePage := {
  ap_title : string;
  ap_extract : option string;
  ap_fullurl : option string;
  ap_categories : option (list string) }.

(** Wikipedia as seen by these routes: a search by query and [srlimit], and
    a content query by title. *)
Record RouteOracle := {
  w_search : string -> nat -> Outcome (list SearchHit);
  w_article : string -> Outcome (list (string * ArticlePage)) }.

Inductive WikiRequest :=
| WSearch (query : string) (limit : nat)
| WArticle (title : string).

(** [req.query] as parsed by Express from the query string: a parameter is
    absent or a string. *)
Record QueryParams := { qp_q : option string; qp_limit : option string }.

(** Issues reported by [searchQuerySchema] and [articleQuerySchema]. *)
Inductive Issue :=
| Required (field : string)
| TooShort (field : string)
| TooLong (field : string)
| NotANumber (field : string).

(** [error.message] of an exception caught by a route: a [ZodError] (its
    message serialises its issues) or an [Error] with its message. *)
Inductive RouteErr :=
| RValidation (issues : list Issue)
| RMessage (message : string).

(** [searchQuerySchema.parse(req.query)]: [q] a string of length 1..500,
    [limit] an optional number (a query-string value is a string, which
    [z.number()] refuses), defaulting to 5. *)
Definition parse_search (qp : QueryParams) : list Issue + (string * nat) :=
  let q_issues :=
    match qp_q qp with
    | None => [Required "q"]
    | Some q =>
        if String.length q =? 0 then [TooShort "q"]
        else if 500 <? String.length q then [TooLong "q"] else []
    end in
  let limit_issues :=
    match qp_limit qp with
    | None => []
    | Some _ => [NotANumber "limit"]
    end in
  match qp_q qp, (q_issues ++ limit_issues)%list with
  | Some q, [] => inr (q, 5)
  | _, issues => inl issues
  end.

Record SearchResp := {
  sr_status : nat;
  sr_success : bool;
  sr_results : list SearchHit;
  sr_query : option string;
  sr_total : option nat;
  sr_error : option RouteErr }.

Definition search_failure (e : RouteErr) : SearchResp :=
  {| sr_status := 400; sr_success := false; sr_results := []; sr_query := None;
     sr_total := None; sr_error := Some e |}.

(** [app.get("/api/wikipedia/search", ...)]: the response and the requests
    sent to Wikipedia. *)
Definition searchRoute (W : RouteOracle) (qp : QueryParams)
  : SearchResp * list WikiRequest :=
  match parse_search qp with
  | inl issues => (search_failure (RValidation issues), [])
  | inr (query, limit) =>
      let sent := [WSearch query limit] in
      match w_search W query limit with
      | Rejected m => (search_failure (RMessage m), sent)
      | Responded ok status results =>
          if negb ok
          then (search_failure (RMessage ("Wikipedia API error: " ++ nat_to_dec status)), sent)
          else ({| sr_status := 200; sr_success := true; sr_results := results;
                   sr_query := Some query; sr_total := Some (length results);
                   sr_error := None |}, sent)
      end
  end.

(** The [article] object of the article route. *)
Record ArticleOut := {
  ao_title : string;
  ao_extract : option string;
  ao_url : option string;
  ao_categories : list string;
  ao_wordCount : nat }.

Record ArticleResp := {
  ar_status : nat;
  ar_success : bool;
  ar_article : option ArticleOut;
  ar_error : option RouteErr }.

Definition article_failure (status : nat) (e : RouteErr) : ArticleResp :=
  {| ar_status := status; ar_success := false; ar_article := None; ar_error := Some e |}.

(** [page.extract ? page.extract.split(' ').length : 0] *)
Definition wordCount (extract : option string) : nat :=
  match truthy extract with
  | Some e => length (split_char (ascii_of_nat 32) e)
  | None => 0
  end.

(** [articleQuerySchema.parse(req.query)]: [title] a non-empty string. *)
Definition parse_article (title : option string) : list Issue + string :=
  match title with
  | None => inl [Required "title"]
  | Some t => if String.length t =? 0 then inl [TooShort "title"] else inr t
  end.

(** The message of the [TypeError] thrown by [page.categories] when
    [pages] is empty ([page] is then [undefined]). *)
Definition undefined_categories_message : string :=
  "Cannot read properties of undefined (reading 'categories')".

(** [app.get("/api/wikipedia/article", ...)] *)
Definition articleRoute (W : RouteOracle) (title_param : option string)
  : ArticleResp * list WikiRequest :=
  match parse_article title_param with
  | inl issues => (article_failure 400 (RValidation issues), [])
  | inr title =>
      let sent := [WArticle title] in
      match w_article W title with
      | Rejected m => (article_failure 400 (RMessage m), sent)
      | Responded ok status pages =>
          if negb ok
          then (article_failure 400 (RMessage ("Wikipedia API error: " ++ nat_to_dec status)), sent)
          else
          match pages with
          | [] => (article_failure 400 (RMessage undefined_categories_message), sent)
          | (pageId, page) :: _ =>
              if String.eqb pageId "-1"
              then (article_failure 404 (RMessage "Article not found"), sent)
              else
              let categories := match ap_categories page with
                                | Some cs => cs
                                | None => []
                                end in
              ({| ar_status := 200; ar_success := true;
                  ar_article := Some {| ao_title := ap_title page;
                                        ao_extract := ap_extract page;
                                        ao_url := ap_fullurl page;
                                        ao_categories := firstn 5 categories;
                                        ao_wordCount := wordCount (ap_extract page) |};
                  ar_error := None |}, sent)
          end
      end
  end.

(** The HTTP status and body of [/api/wikipedia/process]: [res.json(...)]
    in the [try] block answers 200, the [catch] block 500. *)
Definition process_route (O : Oracle) (rng : list Z) (question : string) : nat * Response :=
  match process_body O question (init rng) with
  | (Ok r, _) => (200, r)
  | (Throw e, _) => (500, failure e)
  end.

(** [response.ok]: a status in 200..299. *)
Definition http_ok (status : nat) : bool := (200 <=? status) && (status <? 300).

(** The error of a client result: [inl e] is the server's [error] field
    (the message of [e]), [inr m] a message made by the client. *)
Definition ClientErr : Type := (Exn + string)%type.

Record ClientProcessResp := {
  cp_success : bool;
  cp_response : option string;
  cp_sources : option (list string);
  cp_error : option ClientErr }.

(** The JSON body of a [/process] response as the client decodes it. *)
Definition process_body_json (r : Response) : ClientProcessResp :=
  {| cp_success := resp_success r; cp_response := resp_response r;
     cp_sources := resp_sources r;
     cp_error := match resp_error r with Some e => Some (inl e) | None => None end |}.

(** [wikipediaAPI.processQuestion(question)] against the route
    ([server] answers the POST with a status and a body). *)
Definition client_processQuestion (server : string -> nat * Response) (question : string)
  : ClientProcessResp :=
  let '(status, body) := server question in
  if http_ok status then process_body_json body
  else {| cp_success := false; cp_response := None; cp_sources := None;
          cp_error := Some (inr ("HTTP error! status: " ++ nat_to_dec status)) |}.

Record ClientSearchResp := {
  cs_success : bool;
  cs_results : list SearchHit;
  cs_query : option string;
  cs_total : option nat;
  cs_error : option (RouteErr + string) }.

(** [wikipediaAPI.search(query, limit)] against the route: the request
    always carries [limit=${limit}]; [encodeURIComponent] on the client and
    the query-string parsing of Express give the route the original
    strings. *)
Definition client_search (server : QueryParams -> SearchResp) (query : string) (limit : nat)
  : ClientSearchResp :=
  let r := server {| qp_q := Some query; qp_limit := Some (nat_to_dec limit) |} in
  if http_ok (sr_status r)
  then {| cs_success := sr_success r; cs_results := sr_results r; cs_query := sr_query r;
          cs_total := sr_total r;
          cs_error := match sr_error r with Some e => Some (inl e) | None => None end |}
  else {| cs_success := false; cs_results := []; cs_query := Some query; cs_total := Some 0;
          cs_error := Some (inr ("HTTP error! status: " ++ nat_to_dec (sr_status r))) |}.

Record ClientArticleResp := {
  ca_success : bool;
  ca_article : option ArticleOut;
  ca_error : option (RouteErr + string) }.

(** [wikipediaAPI.getArticle(title)] against the route. *)
Definition client_getArticle (server : option string -> ArticleResp) (title : string)
  : ClientArticleResp :=
  let r := server (Some title) in
  if http_ok (ar_status r)
  then {| ca_success := ar_success r; ca_article := ar_article r;
          ca_error := match ar_error r with Some e => Some (inl e) | None => None end |}
  else {| ca_success := false; ca_article := None;
          ca_error := Some (inr ("HTTP error! status: " ++ nat_to_dec (ar_status r))) |}.

(** The [WikipediaArticle] built by [getArticleDirect]. *)
Record DirectArticle := {
  da_title : string;
  da_extract : option string;
  da_url : string;
  da_wordCount : nat }.

(** [wikipediaAPI.getArticleDirect(title)] ([content] answers its content
    query, which asks for no categories): [null] is [None]. The fallback
    URL is built from the requested [title]; [response.ok] is not read. *)
Definition getArticleDirect (content : string -> Outcome (list (string * ArticlePage)))
  (title : string) : option DirectArticle :=
  match content title with
  | Rejected _ => None
  | Responded _ _ pages =>
      match pages with
      | [] => None (* [page.title] on [undefined] throws; the catch returns null *)
      | (pageId, page) :: _ =>
          if String.eqb pageId "-1" then None
          else Some {| da_title := ap_title page;
                       da_extract := ap_extract page;
                       da_url := match truthy (ap_fullurl page) with
                                 | Some u => u
                                 | None => wiki_base ++ encodeURIComponent (spaces_to_underscores title)
                                 end;
                       da_wordCount := wordCount (ap_extract page) |}
      end
  end.

End Routes.

(** ** The chat hook: [sendMessage] and its fallback *)

(** The assistant message that [sendMessage] of the [useChat] hook adds
    for a question (the session bookkeeping around it, the user message and
    the title, is not modelled; nor is [processingTime]). The client's
    [generateNoResultResponse] is the server's, word for word. *)

Module Chat.

Import Relevance Pipeline Routes.

(** The inner [detectQuestionType] of [generateFallbackResponse]: the
    server's tests without the comparison case. *)
Definition detectQuestionType (question : string) : QuestionType :=
  let q := toLowerCase question in
  if startsWith q "what" || includes q "what is" || includes q "what are" then QWhat
  else if startsWith q "how" || includes q "how does" || includes q "how to" then QHow
  else if startsWith q "why" || includes q "why is" || includes q "why does" then QWhy
  else if startsWith q "when" || includes q "when did" || includes q "when was" then QWhen
  else QGeneral.

(** The inner [makeContentConversational]: the server's per-sentence
    callback on the first three sentences. *)
Definition makeContentConversational (content : string) : M string :=
  let sentences := filter (fun s => 10 <? String.length (trim s))
                          (split_runs is_sentence_end content) in
  processedSentences <- mapM rephrase_sentence (firstn 3 sentences) ;;
  i <- rand_index (length joinConnectors) ;;
  ret (join (nth i joinConnectors EmptyString) processedSentences).

Definition conclusions : list string :=
  [ nl ++ nl ++ "Hope this helps clarify things!";
    nl ++ nl ++ "Pretty fascinating stuff, right?";
    nl ++ nl ++ "There's definitely more to explore on this topic!";
    nl ++ nl ++ "Let me know if you'd like to dive deeper into any aspect!" ].

(** The message of the [TypeError] thrown by [extract.split] when the
    article has no [extract]. *)
Definition undefined_split_message : string :=
  "Cannot read properties of undefined (reading 'split')".

Definition generateFallbackResponse (question : string) (article : DirectArticle)
  (searchResults : list SearchHit) : M string :=
  match da_extract article with
  | None => throw (EError undefined_split_message)
  | Some extract =>
      let title := da_title article in
      let url := da_url article in
      let paragraphs := filter (fun p => 50 <? String.length (trim p))
                               (split_char (ascii_of_nat 10) extract) in
      let relevantContent := join blank_line (firstn 2 paragraphs) in
      let questionType := detectQuestionType question in
      i <- rand_index (length conversationalIntros) ;;
      let intro := nth i conversationalIntros EmptyString in
      let response :=
        match questionType with
        | QWhat => intro ++ " **" ++ title ++ "**." ++ nl ++ nl
        | QHow => intro ++ " Here's how " ++ toLowerCase title ++ " works:" ++ nl ++ nl
        | QWhy => intro ++ " The reasoning behind " ++ toLowerCase title ++ ":" ++ nl ++ nl
        | QWhen => intro ++ " Looking at the timeline of " ++ toLowerCase title ++ ":" ++ nl ++ nl
        | _ => intro ++ " **" ++ title ++ "**:" ++ nl ++ nl
        end in
      processedContent <- makeContentConversational (substring 0 600 relevantContent) ;;
      j <- rand_index (length conclusions) ;;
      let response := response ++ processedContent ++ nth j conclusions EmptyString in
      let response := response ++ nl ++ nl ++ sources_header ++ nl
                      ++ source_bullet title url ++ nl in
      ret (if 1 <? length searchResults
           then response ++ nl ++ related_header
                ++ join ", " (map hit_title (firstn 2 (skipn 1 searchResults)))
           else response)
  end.

(** [wikipediaAPI.searchDirect(query, limit)] ([search] answers its search
    query): [data.query?.search?.map(...) || []], [[]] when [fetch] or
    [json()] throws; [response.ok] is not read. *)
Definition searchDirect (search : string -> nat -> Outcome (list SearchHit))
  (query : string) (limit : nat) : list SearchHit :=
  match search query limit with
  | Rejected _ => []
  | Responded _ _ results => results
  end.

Record MessageMeta := { meta_sources : option (list string); meta_searchQuery : string }.

Record Reply := { reply_text : string; reply_meta : option MessageMeta }.

(** What the hook gets from the API client: the result of
    [wikipediaAPI.processQuestion], and the answers of Wikipedia to the
    direct search and content queries. *)
Record ClientEnv := {
  ce_process : string -> ClientProcessResp;
  ce_search : string -> nat -> Outcome (list SearchHit);
  ce_content : string -> Outcome (list (string * ArticlePage)) }.

Definition apology : string :=
  "I apologize, but I'm having trouble connecting to Wikipedia right now. Please check your internet connection and try again.".

(** The assistant message added by [sendMessage(content)]; [None] when it
    returns at once on a blank [content]. *)
Definition sendMessage_reply (E : ClientEnv) (content : string) : M (option Reply) :=
  if String.eqb (trim content) EmptyString then ret None
  else
  catch
    (let response := ce_process E content in
     match cp_success response, truthy (cp_response response) with
     | true, Some text =>
         ret (Some {| reply_text := text;
                      reply_meta := Some {| meta_sources := cp_sources response;
                                            meta_searchQuery := content |} |})
     | _, _ =>
         let searchResults := searchDirect (ce_search E) content 3 in
         match searchResults with
         | top :: _ =>
             let article := getArticleDirect (ce_content E) (hit_title top) in
             responseText <- (match article with
                              | Some a => generateFallbackResponse content a searchResults
                              | None => generateNoResultResponse content
                              end) ;;
             ret (Some {| reply_text := responseText;
                          reply_meta := Some {| meta_sources := Some (map hit_title searchResults);
                                                meta_searchQuery := content |} |})
         | [] =>
             t <- generateNoResultResponse content ;;
             ret (Some {| reply_text := t; reply_meta := None |})
         end
     end)
    (fun _ => ret (Some {| reply_text := apology; reply_meta := None |})).

End Chat.

(** ** Concrete behaviours of the service for the other routes *)

Module RouteScenarios.

Import Pipeline Routes Chat.

Definition einstein_hit : SearchHit := {|
  hit_title := "Albert Einstein"; hit_snippet := "physicist"; hit_pageid := 736;
  hit_size := 4000; hit_wordcount := 600; hit_timestamp := "2024-01-01T00:00:00Z" |}.

Definition einstein_page : ArticlePage := {|
  ap_title := "Albert Einstein";
  ap_extract := Some "Albert Einstein was a German-born theoretical physicist.";
  ap_fullurl := Some "https://en.wikipedia.org/wiki/Albert_Einstein";
  ap_categories := Some ["Category:1879 births"; "Category:1955 deaths";
                         "Category:German physicists"; "Category:Nobel laureates";
                         "Category:Relativity"; "Category:Pacifists";
                         "Category:Violinists"] |}.

(** A page that exists but comes back without an extract. *)
Definition bare_page : ArticlePage := {|
  ap_title := "Albert Einstein"; ap_extract := None; ap_fullurl := None;
  ap_categories := None |}.

Definition W_einstein : RouteOracle := {|
  w_search := fun _ _ => Responded true 200 [einstein_hit];
  w_article := fun _ => Responded true 200 [("736", einstein_page)] |}.

Definition W_missing : RouteOracle := {|
  w_search := fun _ _ => Responded true 200 [];
  w_article := fun t => Responded true 200
                 [("-1", {| ap_title := t; ap_extract := None; ap_fullurl := None;
                           ap_categories := None |})] |}.

(** An empty page map ([data.query] without [pages]). *)
Definition W_no_pages : RouteOracle := {|
  w_search := fun _ _ => Responded true 200 [];
  w_article := fun _ => Responded true 200 [] |}.

(** The backend fails; the direct search finds a page without extract. *)
Definition E_bare : ClientEnv := {|
  ce_process := fun _ => {| cp_success := false; cp_response := None; cp_sources := None;
                            cp_error := Some (inr "HTTP error! status: 500") |};
  ce_search := fun _ _ => Responded true 200 [einstein_hit];
  ce_content := fun _ => Responded true 200 [("736", bare_page)] |}.

End RouteScenarios.

(** ** Reasoning vocabulary *)

Module Reasoning.

Import Pipeline.

(** Computations that only consume random numbers: they never throw and
    leave the request log and the selected passages unchanged. *)
Definition pure_rng {A} (m : M A) : Prop :=
  forall s, exists a s', m s = (Ok a, s')
                         /\ st_calls s' = st_calls s /\ st_passages s' = st_passages s.

(** Two handler states that may differ only in their random source. *)
Definition agree (s1 s2 : St) : Prop :=
  st_calls s1 = st_calls s2 /\ st_passages s1 = st_passages s2.

Definition rel_res {A B} (R : A -> B -> Prop) (x : Result A * St) (y : Result B * St)
  : Prop :=
  agree (snd x) (snd y) /\
  match fst x, fst y with
  | Ok a, Ok b => R a b
  | Throw e1, Throw e2 => e1 = e2
  | _, _ => False
  end.

(** Two computations run from states that agree end in states that agree,
    both throwing the same exception or both returning related values. *)
Definition rel {A B} (R : A -> B -> Prop) (m1 : M A) (m2 : M B) : Prop :=
  forall s1 s2, agree s1 s2 -> rel_res R (m1 s1) (m2 s2).

(** Responses that differ at most in their text. *)
Definition same_shape (r1 r2 : Response) : Prop :=
  resp_success r1 = resp_success r2 /\ resp_sources r1 = resp_sources r2
  /\ resp_error r1 = resp_error r2.

(** [contentResponse.ok] is checked after the content fetch. *)
Definition content_ok {A} (o : Outcome A) : bool :=
  match o with
  | Responded true _ _ => true
  | _ => false
  end.

(** The passages [generateWikipediaResponse] hands to the synthesizer for
    [article]: none when it falls back to the no-result answer. *)
Definition selected_passage (question : string) (article : option Page) : list string :=
  match article with
  | Some a =>
      match truthy (page_extract a) with
      | Some extract => [Relevance.extractRelevantContent (Relevance.paragraphs_of extract) question]
      | None => []
      end
  | None => []
  end.

(** [piece] is what the per-sentence callback of
    [makeContentConversational] may make of [sentence]: the trimmed
    sentence, or a connector followed by the lower-cased trimmed sentence,
    possibly wrapped in [**] when longer than 100 characters. *)
Definition rephrasing_of (sentence piece : string) : Prop :=
  exists body,
    (body = trim sentence
     \/ exists c, In c sentenceConnectors /\ body = c ++ toLowerCase (trim sentence)) /\
    (piece = body \/ (100 < String.length body /\ piece = "**" ++ body ++ "**")).

(** The number of occurrences of the character [c] in [s]. *)
Fixpoint count_char (c : ascii) (s : string) : nat :=
  match s with
  | EmptyString => 0
  | String d s' => (if Ascii.eqb d c then 1 else 0) + count_char c s'
  end.

End Reasoning.

(** * Properties *)

(** ** String lemmas *)

Module StrFacts.

Lemma append_assoc_str (a b c : string) : (a ++ b) ++ c = a ++ (b ++ c).
Proof. induction a as [|x a IH]; simpl; [reflexivity | now rewrite IH]. Qed.

Lemma startsWith_app (w b : string) : startsWith (w ++ b) w = true.
Proof.
  induction w as [|c w IH]; simpl; [reflexivity|].
  now rewrite Ascii.eqb_refl, IH.
Qed.

Lemma includes_prefix (w b : string) : includes (w ++ b) w = true.
Proof.
  destruct w as [|c w]; [destruct b; reflexivity|].
  simpl; now rewrite Ascii.eqb_refl, startsWith_app.
Qed.

Lemma includes_app_l (a s w : string) :
  includes s w = true -> includes (a ++ s) w = true.
Proof.
  intros H; induction a as [|c a IH]; simpl; [exact H|].
  rewrite IH. apply orb_true_r.
Qed.

Lemma includes_middle (a w b : string) : includes (a ++ w ++ b) w = true.
Proof. apply includes_app_l, includes_prefix. Qed.

End StrFacts.

(** ** Relevance extractor *)

Module RelevanceFacts.

Import Relevance.

Lemma score_fold (lp : string) (ws : list string) (acc : nat) :
  Forall (fun w => 3 < String.length w) ws ->
  fold_left
    (fun score word =>
       if includes lp word
       then score + (if 3 <? String.length word then 2 else 1)
       else score) ws acc
  = acc + 2 * length (filter (includes lp) ws).
Proof.
  revert acc; induction ws as [|w ws IH]; intros acc Hall; simpl; [lia|].
  inversion Hall as [|? ? Hw Hws]; subst.
  rewrite IH by exact Hws.
  destruct (includes lp w); simpl; [|reflexivity].
  replace (3 <? String.length w) with true by (symmetry; apply Nat.ltb_lt; lia).
  lia.
Qed.

Lemma queryWords_long (q : string) :
  Forall (fun w => 3 < String.length w) (queryWords q).
Proof.
  apply Forall_forall; intros w Hw.
  unfold queryWords in Hw; apply filter_In in Hw as [_ Hw].
  now apply Nat.ltb_lt.
Qed.

Lemma Forall_insert_desc (P : Scored -> Prop) (x : Scored) (l : list Scored) :
  P x -> Forall P l -> Forall P (insert_desc x l).
Proof.
  intros Hx Hl; induction Hl as [|y l Hy Hl IH]; simpl; [now constructor|].
  destruct (sc_score y <=? sc_score x); constructor; auto.
Qed.

Lemma Forall_sort_desc (P : Scored -> Prop) (l : list Scored) :
  Forall P l -> Forall P (sort_desc l).
Proof.
  induction 1; simpl; [constructor|]. now apply Forall_insert_desc.
Qed.

Lemma Forall_firstn_sc (P : Scored -> Prop) (n : nat) (l : list Scored) :
  Forall P l -> Forall P (firstn n l).
Proof.
  revert l; induction n as [|n IH]; intros l Hl; simpl; [constructor|].
  destruct Hl; constructor; auto.
Qed.

End RelevanceFacts.

(** ** Static dictionary *)

Module SpellingFacts.

Import Spelling.

Lemma lower_char_idem (c : ascii) : lower_char (lower_char c) = lower_char c.
Proof. destruct c as [[|] [|] [|] [|] [|] [|] [|] [|]]; reflexivity. Qed.

Lemma is_word_lower (c : ascii) : is_word (lower_char c) = is_word c.
Proof. destruct c as [[|] [|] [|] [|] [|] [|] [|] [|]]; reflexivity. Qed.

Lemma startsWith_ci_lower (s p : string) :
  startsWith_ci (toLowerCase s) p = startsWith_ci s p.
Proof.
  revert s; induction p as [|c p IH]; intros s; destruct s as [|d s]; simpl; auto.
  now rewrite lower_char_idem, IH.
Qed.

Lemma get_lower (n : nat) (s : string) :
  String.get n (toLowerCase s) = option_map lower_char (String.get n s).
Proof.
  revert n; induction s as [|c s IH]; intros n; destruct n; simpl; auto.
Qed.

Lemma ends_word_lower (s : string) (n : nat) :
  ends_word (toLowerCase s) n = ends_word s n.
Proof.
  unfold ends_word; rewrite get_lower.
  destruct (String.get n s); simpl; [now rewrite is_word_lower | reflexivity].
Qed.

Lemma match_at_lower (w : string) (prev : bool) (s : string) :
  match_at w prev (toLowerCase s) = match_at w prev s.
Proof. unfold match_at; now rewrite startsWith_ci_lower, ends_word_lower. Qed.

Lemma occurs_word_lower (w : string) (prev : bool) (s : string) :
  occurs_word w prev (toLowerCase s) = occurs_word w prev s.
Proof.
  revert prev; induction s as [|c s IH]; intros prev.
  - reflexivity.
  - change (toLowerCase (String c s)) with (String (lower_char c) (toLowerCase s)).
    simpl occurs_word.
    rewrite <- (match_at_lower w prev (String c s)).
    simpl toLowerCase. now rewrite is_word_lower, IH.
Qed.

Lemma replace_word_noop (w r : string) (prev : bool) (s : string) :
  occurs_word w prev s = false -> replace_word w r prev 0 s = s.
Proof.
  revert prev; induction s as [|c s IH]; intros prev H; [reflexivity|].
  simpl in H; apply orb_false_iff in H as [Hm Hrest].
  simpl; rewrite Hm; f_equal; now apply IH.
Qed.

Lemma fold_corrections_noop (dict : list (string * string)) (s : string) :
  forallb (fun '(wrong, _) => negb (occurs_word wrong false s)) dict = true ->
  fold_left (fun corrected '(wrong, right_) => regex_replace_word corrected wrong right_)
    dict s = s.
Proof.
  induction dict as [|[wrong right_] dict IH]; [reflexivity|].
  cbn [fold_left forallb]; intros H; apply andb_true_iff in H as [Hw Hd].
  unfold regex_replace_word at 2.
  rewrite (replace_word_noop wrong right_ false s) by (now apply negb_true_iff).
  now apply IH.
Qed.

Lemma correctCommonMisspellings_noop (q : string) :
  no_known_misspelling q = true ->
  correctCommonMisspellings q = toLowerCase q.
Proof.
  intros H; unfold correctCommonMisspellings.
  apply fold_corrections_noop.
  unfold no_known_misspelling in H.
  rewrite forallb_forall in H |- *.
  intros [wrong right_] Hin; specialize (H _ Hin); simpl in H |- *.
  now rewrite occurs_word_lower.
Qed.

End SpellingFacts.

(** ** The handler's effects *)

Module PipelineFacts.

Import Relevance Pipeline StrFacts Reasoning.

Lemma bind_ok {A B} (m : M A) (k : A -> M B) s a s' :
  m s = (Ok a, s') -> bind m k s = k a s'.
Proof. intros H; unfold bind; now rewrite H. Qed.

Lemma bind_throw {A B} (m : M A) (k : A -> M B) s e s' :
  m s = (Throw e, s') -> bind m k s = (Throw e, s').
Proof. intros H; unfold bind; now rewrite H. Qed.

Lemma validate_ok (q : string) (s : St) :
  1 <= String.length q <= 1000 -> validate q s = (Ok q, s).
Proof.
  intros H; unfold validate.
  destruct (String.length q =? 0) eqn:E1; [apply Nat.eqb_eq in E1; lia|].
  destruct (1000 <? String.length q) eqn:E2; [apply Nat.ltb_lt in E2; lia|].
  reflexivity.
Qed.

Lemma validate_err (q : string) (s : St) :
  String.length q = 0 \/ 1000 < String.length q ->
  exists issue, validate q s = (Throw (EValidation issue), s).
Proof.
  intros H; unfold validate.
  destruct (String.length q =? 0) eqn:E1; [eexists; reflexivity|].
  destruct (1000 <? String.length q) eqn:E2; [eexists; reflexivity|].
  apply Nat.eqb_neq in E1; apply Nat.ltb_ge in E2; lia.
Qed.

Lemma fetch_search_ok O q s ok st b :
  o_search O q = Responded ok st b ->
  fetch_search O q s = (Ok (ok, st, b), push s (ReqSearch q)).
Proof. intros H; unfold fetch_search, bind, log_request; now rewrite H. Qed.

Lemma fetch_search_rej O q s m :
  o_search O q = Rejected m ->
  fetch_search O q s = (Throw (EError m), push s (ReqSearch q)).
Proof. intros H; unfold fetch_search, bind, log_request; now rewrite H. Qed.

Lemma fetch_content_ok O t s ok st b :
  o_content O t = Responded ok st b ->
  fetch_content O t s = (Ok (ok, st, b), push s (ReqContent t)).
Proof. intros H; unfold fetch_content, bind, log_request; now rewrite H. Qed.

Lemma fetch_content_rej O t s m :
  o_content O t = Rejected m ->
  fetch_content O t s = (Throw (EError m), push s (ReqContent t)).
Proof. intros H; unfold fetch_content, bind, log_request; now rewrite H. Qed.

Lemma attempt_ok O q s :
  attemptSpellCorrection O q s = (Ok (fallback_query O q), push s (ReqOpensearch q)).
Proof. reflexivity. Qed.

Lemma run_result O rng q :
  forall r s, process_body O q (init rng) = (r, s) ->
  run O rng q = (match r with Ok x => x | Throw e => failure e end, s).
Proof. intros [x|e] s H; unfold run, processQuestion, catch; now rewrite H. Qed.

Lemma retry_nonempty O q c cs s :
  retry_search O q (c :: cs) s = (Ok (c :: cs), s).
Proof. reflexivity. Qed.

Lemma retry_same O q s :
  fallback_query O q = q ->
  retry_search O q [] s = (Ok [], push s (ReqOpensearch q)).
Proof.
  intros H; unfold retry_search; rewrite (bind_ok _ _ _ _ _ (attempt_ok O q s)).
  now rewrite H, String.eqb_refl.
Qed.


Lemma retry_diff O q s ok st b :
  fallback_query O q <> q ->
  o_search O (fallback_query O q) = Responded ok st b ->
  retry_search O q [] s
  = (Ok b, push (push s (ReqOpensearch q)) (ReqSearch (fallback_query O q))).
Proof.
  intros Hne Hs; unfold retry_search; rewrite (bind_ok _ _ _ _ _ (attempt_ok O q s)).
  apply String.eqb_neq in Hne; rewrite Hne; cbn [negb].
  now rewrite (bind_ok _ _ _ _ _ (fetch_search_ok _ _ _ _ _ _ Hs)).
Qed.

Lemma retry_rej O q s m :
  fallback_query O q <> q ->
  o_search O (fallback_query O q) = Rejected m ->
  retry_search O q [] s
  = (Throw (EError m), push (push s (ReqOpensearch q)) (ReqSearch (fallback_query O q))).
Proof.
  intros Hne Hs; unfold retry_search; rewrite (bind_ok _ _ _ _ _ (attempt_ok O q s)).
  apply String.eqb_neq in Hne; rewrite Hne; cbn [negb].
  now rewrite (bind_throw _ _ _ _ _ (fetch_search_rej _ _ _ _ Hs)).
Qed.

(** After validation and an [ok] original search, the handler continues
    with the fallback block and [answer]. *)
Lemma body_after_search O q rng st b :
  1 <= String.length q <= 1000 ->
  o_search O q = Responded true st b ->
  process_body O q (init rng)
  = bind (retry_search O q b) (answer O q) (push (init rng) (ReqSearch q)).
Proof.
  intros Hv Hs; unfold process_body.
  rewrite (bind_ok _ _ _ _ _ (validate_ok q _ Hv)).
  now rewrite (bind_ok _ _ _ _ _ (fetch_search_ok _ _ _ _ _ _ Hs)).
Qed.

(** Whenever a search call produced the candidates [rs], the handler runs
    [answer] on exactly [rs]. *)
Lemma body_produced O q rng rs :
  1 <= String.length q <= 1000 ->
  produced O q rs ->
  exists s, process_body O q (init rng) = answer O q rs s.
Proof.
  intros Hv Hp; destruct Hp as [st c cs Hs | st ok st' c cs Hs Hne Hs2].
  - rewrite (body_after_search _ _ _ _ _ Hv Hs).
    eexists; apply (bind_ok _ _ _ _ _ (retry_nonempty _ _ _ _ _)).
  - rewrite (body_after_search _ _ _ _ _ Hv Hs).
    eexists; apply (bind_ok _ _ _ _ _ (retry_diff _ _ _ _ _ _ Hne Hs2)).
Qed.


Lemma pure_rng_ret {A} (a : A) : pure_rng (ret a).
Proof. intros s; exists a, s; auto. Qed.

Lemma pure_rng_bind {A B} (m : M A) (k : A -> M B) :
  pure_rng m -> (forall a, pure_rng (k a)) -> pure_rng (bind m k).
Proof.
  intros Hm Hk s; destruct (Hm s) as (a & s1 & E1 & C1 & P1).
  destruct (Hk a s1) as (b & s2 & E2 & C2 & P2).
  exists b, s2; unfold bind; rewrite E1; split; [exact E2|]; split; congruence.
Qed.

Lemma pure_rng_draw : pure_rng draw.
Proof. intros s; unfold draw; destruct (st_rng s); eexists; eexists; auto. Qed.

Lemma pure_rng_rand_index n : pure_rng (rand_index n).
Proof. apply pure_rng_bind; [apply pure_rng_draw | intros; apply pure_rng_ret]. Qed.

Lemma pure_rng_rand_gt a b : pure_rng (rand_gt a b).
Proof. apply pure_rng_bind; [apply pure_rng_draw | intros; apply pure_rng_ret]. Qed.

Lemma pure_rng_mapM {A B} (f : A -> M B) (l : list A) :
  (forall x, pure_rng (f x)) -> pure_rng (mapM f l).
Proof.
  intros Hf; induction l as [|x l IH]; simpl; [apply pure_rng_ret|].
  apply pure_rng_bind; [apply Hf|intros y].
  apply pure_rng_bind; [exact IH|intros; apply pure_rng_ret].
Qed.

Lemma pure_rng_rephrase (x : string) : pure_rng (rephrase_sentence x).
Proof.
  unfold rephrase_sentence.
  apply pure_rng_bind; [apply pure_rng_rand_gt|intros b].
  apply pure_rng_bind.
  - destruct b; [|apply pure_rng_ret].
    apply pure_rng_bind; [apply pure_rng_rand_index|intros; apply pure_rng_ret].
  - intros y; destruct (100 <? String.length y); [|apply pure_rng_ret].
    apply pure_rng_bind; [apply pure_rng_rand_gt|intros; apply pure_rng_ret].
Qed.

Lemma pure_rng_conversational q t c : pure_rng (generateConversationalResponse q t c).
Proof.
  unfold generateConversationalResponse, makeContentConversational.
  apply pure_rng_bind; [apply pure_rng_rand_index|intros i].
  apply pure_rng_bind.
  - apply pure_rng_bind; [apply pure_rng_mapM, pure_rng_rephrase|intros].
    apply pure_rng_bind; [apply pure_rng_rand_index|intros; apply pure_rng_ret].
  - intros; apply pure_rng_bind; [apply pure_rng_rand_index|intros; apply pure_rng_ret].
Qed.

Lemma pure_rng_no_result q : pure_rng (generateNoResultResponse q).
Proof.
  unfold generateNoResultResponse.
  apply pure_rng_bind; [apply pure_rng_rand_index|intros; apply pure_rng_ret].
Qed.

Lemma includes_quoted (q rest : string) :
  includes (dq ++ q ++ dq ++ rest) (dq ++ q ++ dq) = true.
Proof.
  replace (dq ++ q ++ dq ++ rest) with ((dq ++ q ++ dq) ++ rest)
    by (now rewrite !append_assoc_str).
  apply includes_prefix.
Qed.

(** The no-result text quotes the question. *)
Lemma no_result_quotes q s :
  exists t s', generateNoResultResponse q s = (Ok t, s')
               /\ includes t (dq ++ q ++ dq) = true
               /\ st_calls s' = st_calls s /\ st_passages s' = st_passages s.
Proof.
  destruct (pure_rng_no_result q s) as (t & s' & E & C & P).
  exists t, s'; split; [exact E|split; [|auto]].
  unfold generateNoResultResponse, bind, ret in E.
  destruct (rand_index _ s) as [[i|e] s1]; cbv beta iota in E; [|discriminate].
  injection E as <- _.
  repeat (first [apply includes_quoted | apply includes_app_l]).
Qed.

Lemma record_passage_ok (p : string) (s : St) :
  record_passage p s
  = (Ok tt, {| st_rng := st_rng s; st_calls := st_calls s;
               st_passages := (st_passages s ++ [p])%list |}).
Proof. reflexivity. Qed.

Lemma includes_three (a b c rest : string) :
  includes (a ++ b ++ c ++ rest) (a ++ b ++ c) = true.
Proof.
  replace (a ++ b ++ c ++ rest) with ((a ++ b ++ c) ++ rest)
    by (now rewrite !append_assoc_str).
  apply includes_prefix.
Qed.

Lemma append_empty_r (a : string) : a ++ EmptyString = a.
Proof. induction a as [|c a IH]; simpl; [reflexivity|now rewrite IH]. Qed.

(** With an article extract, the synthesized answer is the conversational
    text followed by the sources header and the bullet of the article. *)
Lemma gwr_with_extract q a rs s ex :
  truthy (page_extract a) = Some ex ->
  exists t s', generateWikipediaResponse q (Some a) rs s = (Ok t, s')
    /\ includes t (sources_header ++ nl ++ source_bullet (page_title a) (article_url a)) = true
    /\ st_calls s' = st_calls s
    /\ st_passages s' = (st_passages s ++ [extractRelevantContent (paragraphs_of ex) q])%list.
Proof.
  intros Hex; unfold generateWikipediaResponse; rewrite Hex.
  rewrite (bind_ok _ _ _ _ _ (record_passage_ok _ s)).
  cbv beta zeta.
  match goal with
  | |- context [bind (generateConversationalResponse ?q' ?t' ?c') _ ?s1] =>
      destruct (pure_rng_conversational q' t' c' s1) as (conv & s2 & E & C & P)
  end.
  rewrite (bind_ok _ _ _ _ _ E).
  eexists; exists s2; split; [reflexivity|].
  split; [|split; [exact C|exact P]].
  destruct (1 <? length rs).
  - rewrite !append_assoc_str.
    repeat (first [apply includes_three | apply includes_app_l]).
  - repeat (first [apply includes_three | apply includes_app_l]).
Qed.

Lemma gwr_total q a rs s :
  exists t s', generateWikipediaResponse q a rs s = (Ok t, s')
    /\ st_calls s' = st_calls s
    /\ st_passages s' = (st_passages s ++ selected_passage q a)%list.
Proof.
  destruct a as [a|].
  - destruct (truthy (page_extract a)) as [ex|] eqn:Hex.
    + destruct (gwr_with_extract q a rs s ex Hex) as (t & s' & E & _ & C & P).
      exists t, s'; split; [exact E|].
      unfold selected_passage; rewrite Hex; auto.
    + destruct (pure_rng_no_result q s) as (t & s' & E & C & P).
      exists t, s'; split; [unfold generateWikipediaResponse; rewrite Hex; exact E|].
      unfold selected_passage; rewrite Hex, app_nil_r; auto.
  - destruct (pure_rng_no_result q s) as (t & s' & E & C & P).
    exists t, s'; split; [exact E|].
    unfold selected_passage; rewrite app_nil_r; auto.
Qed.

Lemma answer_content_rej O q c cs s m :
  o_content O (cand_title c) = Rejected m ->
  exists s', answer O q (c :: cs) s = (Throw (EError m), s').
Proof.
  intros H; simpl.
  eexists; apply (bind_throw _ _ _ _ _ (fetch_content_rej _ _ _ _ H)).
Qed.

Lemma answer_content_not_ok O q c cs s st pages :
  o_content O (cand_title c) = Responded false st pages ->
  exists s', answer O q (c :: cs) s
             = (Throw (EError ("Wikipedia content fetch failed: " ++ nat_to_dec st)), s').
Proof.
  intros H; simpl.
  rewrite (bind_ok _ _ _ _ _ (fetch_content_ok _ _ _ _ _ _ H)).
  eexists; reflexivity.
Qed.

Lemma answer_content_ok O q c cs s st pages :
  o_content O (cand_title c) = Responded true st pages ->
  exists t s', answer O q (c :: cs) s
    = (Ok {| resp_success := true; resp_response := Some t;
             resp_sources := Some (map cand_title (c :: cs)); resp_error := None |}, s')
    /\ generateWikipediaResponse q (first_page pages) (c :: cs)
         (push s (ReqContent (cand_title c))) = (Ok t, s').
Proof.
  intros H; simpl.
  rewrite (bind_ok _ _ _ _ _ (fetch_content_ok _ _ _ _ _ _ H)).
  cbn [negb].
  destruct (gwr_total q (first_page pages) (c :: cs) (push s (ReqContent (cand_title c))))
    as (t & s' & E & _ & _).
  exists t, s'; split; [|exact E].
  now rewrite (bind_ok _ _ _ _ _ E).
Qed.

(** ** Relational reasoning: runs differing only in their random source *)

Lemma rel_ret {A B} (R : A -> B -> Prop) a b : R a b -> rel R (ret a) (ret b).
Proof. intros H s1 s2 Hag; split; auto. Qed.

Lemma rel_throw {A B} (R : A -> B -> Prop) e : rel R (throw e) (throw e).
Proof. intros s1 s2 Hag; split; simpl; auto. Qed.

Lemma rel_bind {A B C D} (R : A -> B -> Prop) (R' : C -> D -> Prop)
  (m1 : M A) (m2 : M B) (k1 : A -> M C) (k2 : B -> M D) :
  rel R m1 m2 -> (forall a b, R a b -> rel R' (k1 a) (k2 b)) ->
  rel R' (bind m1 k1) (bind m2 k2).
Proof.
  intros Hm Hk s1 s2 Hag; specialize (Hm s1 s2 Hag); unfold bind.
  destruct (m1 s1) as [[a|e1] s1'], (m2 s2) as [[b|e2] s2'];
    destruct Hm as [Hag' HR]; simpl in HR; try contradiction.
  - now apply Hk.
  - subst; split; simpl; auto.
Qed.

Lemma rel_catch {A} (R : A -> A -> Prop) (m1 m2 : M A) (h : Exn -> M A) :
  rel R m1 m2 -> (forall e, rel R (h e) (h e)) -> rel R (catch m1 h) (catch m2 h).
Proof.
  intros Hm Hh s1 s2 Hag; specialize (Hm s1 s2 Hag); unfold catch.
  destruct (m1 s1) as [[a|e1] s1'], (m2 s2) as [[b|e2] s2'];
    destruct Hm as [Hag' HR]; simpl in HR; try contradiction.
  - split; simpl; auto.
  - subst; now apply Hh.
Qed.

Lemma rel_pure_rng {A B} (m1 : M A) (m2 : M B) :
  pure_rng m1 -> pure_rng m2 -> rel (fun _ _ => True) m1 m2.
Proof.
  intros H1 H2 s1 s2 [Hc Hp].
  destruct (H1 s1) as (a & s1' & E1 & C1 & P1), (H2 s2) as (b & s2' & E2 & C2 & P2).
  rewrite E1, E2; split; [split; simpl; congruence | exact I].
Qed.

Lemma rel_log r : rel eq (log_request r) (log_request r).
Proof. intros s1 s2 [Hc Hp]; split; [split; simpl; congruence | reflexivity]. Qed.

Lemma rel_await {A} (o : Outcome A) : rel eq (await_outcome o) (await_outcome o).
Proof. destruct o; [apply rel_throw | apply rel_ret; reflexivity]. Qed.

Lemma rel_validate q : rel eq (validate q) (validate q).
Proof.
  unfold validate.
  destruct (String.length q =? 0); [apply rel_throw|].
  destruct (1000 <? String.length q); [apply rel_throw | apply rel_ret; reflexivity].
Qed.

Lemma rel_fetch_search O q : rel eq (fetch_search O q) (fetch_search O q).
Proof.
  apply (rel_bind eq); [apply rel_log | intros ? ? _; apply rel_await].
Qed.

Lemma rel_fetch_content O t : rel eq (fetch_content O t) (fetch_content O t).
Proof.
  apply (rel_bind eq); [apply rel_log | intros ? ? _; apply rel_await].
Qed.

Lemma rel_gwr q a rs :
  rel (fun _ _ => True) (generateWikipediaResponse q a rs) (generateWikipediaResponse q a rs).
Proof.
  intros s1 s2 [Hc Hp].
  destruct (gwr_total q a rs s1) as (t1 & s1' & E1 & C1 & P1).
  destruct (gwr_total q a rs s2) as (t2 & s2' & E2 & C2 & P2).
  rewrite E1, E2; split; [split; simpl; congruence | exact I].
Qed.

Lemma rel_retry O q b : rel eq (retry_search O q b) (retry_search O q b).
Proof.
  unfold retry_search; destruct b; [|apply rel_ret; reflexivity].
  apply (rel_bind eq).
  - unfold attemptSpellCorrection.
    apply (rel_bind eq); [apply rel_log | intros; apply rel_ret; reflexivity].
  - intros c ? <-.
    destruct (negb (c =? q)%string); [|apply rel_ret; reflexivity].
    apply (rel_bind eq); [apply rel_fetch_search|].
    intros [[? ?] ?] ? <-; apply rel_ret; reflexivity.
Qed.

Lemma rel_answer O q rs : rel same_shape (answer O q rs) (answer O q rs).
Proof.
  unfold answer; destruct rs as [|c cs].
  - apply (rel_bind (fun _ _ => True));
      [apply rel_pure_rng; apply pure_rng_no_result|].
    intros; apply rel_ret; repeat split.
  - apply (rel_bind eq); [apply rel_fetch_content|].
    intros [[cok cstatus] pages] ? <-.
    destruct (negb cok); [apply rel_throw|].
    apply (rel_bind (fun _ _ => True)); [apply rel_gwr|].
    intros; apply rel_ret; repeat split.
Qed.

Lemma rel_processQuestion O q :
  rel same_shape (processQuestion O q) (processQuestion O q).
Proof.
  unfold processQuestion; apply rel_catch.
  - unfold process_body.
    apply (rel_bind eq); [apply rel_validate|intros ? ? <-].
    apply (rel_bind eq); [apply rel_fetch_search|intros [[ok st] b] ? <-].
    destruct (negb ok); [apply rel_throw|].
    apply (rel_bind eq); [apply rel_retry|intros ? ? <-].
    apply rel_answer.
  - intros e; apply rel_ret; repeat split.
Qed.

End PipelineFacts.

(** ** Claims *)

Import Relevance Spelling Pipeline Scenarios Reasoning StrFacts RelevanceFacts
  SpellingFacts PipelineFacts.

Lemma filter_all_false {A} (f : A -> bool) (l : list A) :
  (forall x, In x l -> f x = false) -> filter f l = [].
Proof.
  induction l as [|x l IH]; intros H; simpl; [reflexivity|].
  rewrite (H x (or_introl eq_refl)). apply IH; intros y Hy; apply H; now right.
Qed.

Lemma extract_all_zero (paragraphs : list string) (question : string) :
  (forall p w, In p paragraphs -> In w (queryWords question) ->
               includes (toLowerCase p) w = false) ->
  extractRelevantContent paragraphs question = join blank_line (firstn 2 paragraphs).
Proof.
  intros H; unfold extractRelevantContent.
  assert (Hz : Forall (fun x => sc_score x = 0)
     (map (fun p => {| sc_paragraph := trim p;
                       sc_score := score (queryWords question) p |}) paragraphs)).
  { apply Forall_forall; intros x Hx; apply in_map_iff in Hx as [p [<- Hp]]; simpl.
    unfold score; rewrite score_fold by apply queryWords_long.
    rewrite filter_all_false; [reflexivity|].
    intros w Hw; now apply H. }
  apply Forall_sort_desc, (Forall_firstn_sc _ 3) in Hz.
  destruct (firstn 3 _) as [|top rest]; [reflexivity|].
  inversion Hz as [|? ? Htop _]; subst. now rewrite Htop.
Qed.

(** Claim C6: when no paragraph kept by the length filter contains any
    question token (lower-cased word longer than 3 characters), the
    relevance extractor returns the first two of those paragraphs, in their
    original order, joined by a blank line. *)
Theorem extractRelevantContent_no_match (extract question : string) :
  (forall p w, In p (paragraphs_of extract) -> In w (queryWords question) ->
               includes (toLowerCase p) w = false) ->
  extractRelevantContent (paragraphs_of extract) question
  = join blank_line (firstn 2 (paragraphs_of extract)).
Proof. apply extract_all_zero. Qed.

(** Claim C10: the score of a paragraph is twice the number of question
    tokens, counted with multiplicity, that occur in the lower-cased
    paragraph; in particular it is even. *)
Theorem score_counts_duplicates (question paragraph : string) :
  score (queryWords question) paragraph
  = 2 * length (filter (includes (toLowerCase paragraph)) (queryWords question))
  /\ Nat.Even (score (queryWords question) paragraph).
Proof.
  assert (E : score (queryWords question) paragraph
              = 2 * length (filter (includes (toLowerCase paragraph)) (queryWords question))).
  { unfold score; rewrite score_fold by apply queryWords_long; reflexivity. }
  split; [exact E|]. rewrite E. eexists; reflexivity.
Qed.

(** Claim C7 (counterexample): "Hello" contains no dictionary word and the
    suggestion endpoint returns no suggestion, yet the resolver returns
    "hello", not the query unchanged. *)
Lemma resolver_changes_unmapped_query :
  no_known_misspelling "Hello" = true
  /\ fst (attemptSpellCorrection O_missing_page "Hello" st0) = Ok "hello"
  /\ "hello" <> "Hello".
Proof. split; [vm_compute; reflexivity | split; [vm_compute; reflexivity | discriminate]]. Qed.

(** Claim C7 (as amended): when no dictionary word occurs in the query
    (case-insensitively, as a whole word) and the suggestion call completes
    without a non-empty suggestion, the resolver returns the query
    lower-cased; apart from the case of its letters it is unchanged. *)
Theorem resolver_unmapped_lowercased (O : Oracle) (q : string) (s : St) :
  (exists ok status sugg, o_opensearch O q = Responded ok status sugg
                          /\ truthy sugg = None) ->
  no_known_misspelling q = true ->
  fst (attemptSpellCorrection O q s) = Ok (toLowerCase q).
Proof.
  intros (ok & status & sugg & Ho & Hs) Hn.
  unfold attemptSpellCorrection, bind, log_request, ret; simpl.
  rewrite Ho; unfold spell_result; rewrite Hs.
  now rewrite correctCommonMisspellings_noop.
Qed.

Lemma resolver_unmapped_lowercased_witness :
  ((exists ok status sugg, o_opensearch O_missing_page "Hello" = Responded ok status sugg
                            /\ truthy sugg = None)
   /\ no_known_misspelling "Hello" = true)
  /\ fst (attemptSpellCorrection O_missing_page "Hello" st0) = Ok (toLowerCase "Hello").
Proof.
  assert (H1 : exists ok status sugg,
             o_opensearch O_missing_page "Hello" = Responded ok status sugg
             /\ truthy sugg = None)
    by (exists true, 200, None; split; reflexivity).
  assert (H2 : no_known_misspelling "Hello" = true) by (vm_compute; reflexivity).
  split; [split; assumption|].
  exact (resolver_unmapped_lowercased O_missing_page "Hello" st0 H1 H2).
Defined.

(** Claim C8 (counterexample): when the suggestion call fails, the resolver
    returns "phisics" unchanged although the dictionary corrects it to
    "physics". *)
Lemma resolver_failure_skips_dictionary :
  fst (attemptSpellCorrection O_down "phisics" st0) = Ok "phisics"
  /\ correctCommonMisspellings "phisics" = "physics".
Proof. split; vm_compute; reflexivity. Qed.

(** Claim C8 (as amended): the resolver never raises; when the suggestion
    call throws (transport or JSON failure) it returns the query unchanged
    without consulting the dictionary, and when the call completes without a
    non-empty suggestion (even with an error status) it returns the
    dictionary-corrected query. *)
Theorem resolver_failure_semantics (O : Oracle) (q : string) (s : St) :
  (exists v, fst (attemptSpellCorrection O q s) = Ok v)
  /\ (forall m, o_opensearch O q = Rejected m ->
                fst (attemptSpellCorrection O q s) = Ok q)
  /\ (forall ok status sugg, o_opensearch O q = Responded ok status sugg ->
        truthy sugg = None ->
        fst (attemptSpellCorrection O q s) = Ok (correctCommonMisspellings q)).
Proof.
  unfold attemptSpellCorrection, bind, log_request, ret; simpl.
  split; [eexists; reflexivity|split].
  - intros m Hm; now rewrite Hm.
  - intros ok status sugg Ho Hs; rewrite Ho; simpl; now rewrite Hs.
Qed.

Lemma extractRelevantContent_no_match_witness :
  let extract := "The first paragraph of this article is long enough to be kept by the filter."
                 ++ nl ++ "A second paragraph, also long enough to pass the fifty character test." in
  (forall p w, In p (paragraphs_of extract) -> In w (queryWords "Tell me about xylophones") ->
               includes (toLowerCase p) w = false)
  /\ extractRelevantContent (paragraphs_of extract) "Tell me about xylophones"
     = join blank_line (firstn 2 (paragraphs_of extract)).
Proof.
  intros extract.
  assert (H : forall p w, In p (paragraphs_of extract) ->
                          In w (queryWords "Tell me about xylophones") ->
                          includes (toLowerCase p) w = false).
  { intros p w Hp Hw; vm_compute in Hp, Hw.
    repeat (destruct Hp as [<-|Hp]); try contradiction;
    repeat (destruct Hw as [<-|Hw]); try contradiction; vm_compute; reflexivity. }
  split; [exact H|].
  exact (extractRelevantContent_no_match extract "Tell me about xylophones" H).
Defined.

(** Claim C1: a question of length 0 or above 1000 is rejected by the
    validation with a failure response, before any HTTP request is sent
    (the request log is empty and the state untouched). *)
Theorem validation_rejects_before_network (O : Oracle) (rng : list Z) (q : string) :
  String.length q = 0 \/ 1000 < String.length q ->
  exists issue, run O rng q = (failure (EValidation issue), init rng)
                /\ st_calls (snd (run O rng q)) = [].
Proof.
  intros H; destruct (validate_err q (init rng) H) as [issue E].
  exists issue.
  assert (B : process_body O q (init rng) = (Throw (EValidation issue), init rng))
    by (unfold process_body; exact (bind_throw _ _ _ _ _ E)).
  rewrite (run_result _ _ _ _ _ B); split; reflexivity.
Qed.

Lemma validation_rejects_before_network_witness :
  (String.length "" = 0 \/ 1000 < String.length "")
  /\ exists issue, run O_quantum [] "" = (failure (EValidation issue), init [])
                   /\ st_calls (snd (run O_quantum [] "")) = [].
Proof.
  assert (H : String.length "" = 0 \/ 1000 < String.length "") by (left; reflexivity).
  split; [exact H|].
  exact (validation_rejects_before_network O_quantum [] "" H).
Defined.

(** Claim C2: when the original search and the fallback search (if one is
    sent) both return no candidates, the handler answers with success, an
    empty source list, and a text that quotes the question verbatim. *)
Theorem no_results_is_successful_answer (O : Oracle) (rng : list Z) (q : string) :
  1 <= String.length q <= 1000 ->
  (exists status, o_search O q = Responded true status []) ->
  (fallback_query O q <> q ->
   exists ok status, o_search O (fallback_query O q) = Responded ok status []) ->
  resp_success (fst (run O rng q)) = true
  /\ resp_sources (fst (run O rng q)) = Some []
  /\ exists t, resp_response (fst (run O rng q)) = Some t
               /\ includes t (dq ++ q ++ dq) = true.
Proof.
  intros Hv [status Hs] Hf.
  assert (R : exists s1, process_body O q (init rng) = answer O q [] s1).
  { rewrite (body_after_search _ _ _ _ _ Hv Hs).
    destruct (String.eqb (fallback_query O q) q) eqn:Eq.
    - apply String.eqb_eq in Eq.
      eexists; exact (bind_ok _ _ _ _ _ (retry_same _ _ _ Eq)).
    - apply String.eqb_neq in Eq.
      destruct (Hf Eq) as (ok & status' & Hs2).
      eexists; exact (bind_ok _ _ _ _ _ (retry_diff _ _ _ _ _ _ Eq Hs2)). }
  destruct R as [s1 R].
  destruct (no_result_quotes q s1) as (t & s' & E & Hq & _).
  unfold answer in R; rewrite (bind_ok _ _ _ _ _ E) in R.
  rewrite (run_result _ _ _ _ _ R); simpl.
  split; [reflexivity|split; [reflexivity|]].
  exists t; split; [reflexivity|exact Hq].
Qed.

Lemma no_results_is_successful_answer_witness :
  (1 <= String.length "asdkjaslkdj" <= 1000
   /\ (exists status, o_search O_empty "asdkjaslkdj" = Responded true status [])
   /\ (fallback_query O_empty "asdkjaslkdj" <> "asdkjaslkdj" ->
       exists ok status, o_search O_empty (fallback_query O_empty "asdkjaslkdj")
                         = Responded ok status []))
  /\ resp_success (fst (run O_empty [] "asdkjaslkdj")) = true.
Proof.
  assert (H1 : 1 <= String.length "asdkjaslkdj" <= 1000) by (simpl; lia).
  assert (H2 : exists status, o_search O_empty "asdkjaslkdj" = Responded true status [])
    by (exists 200; reflexivity).
  assert (H3 : fallback_query O_empty "asdkjaslkdj" <> "asdkjaslkdj" ->
               exists ok status, o_search O_empty (fallback_query O_empty "asdkjaslkdj")
                                 = Responded ok status [])
    by (intros _; exists true, 200; reflexivity).
  split; [split; [exact H1|split; [exact H2|exact H3]]|].
  exact (proj1 (no_results_is_successful_answer O_empty [] "asdkjaslkdj" H1 H2 H3)).
Defined.

(** Claim C3: when a search call (the original one, or the fallback one
    after an empty original search) produced the non-empty candidate list
    [rs], the response's source titles are exactly the titles of [rs] in
    rank order; they are absent only when the content fetch fails, in which
    case the response is a failure. *)
Theorem sources_are_producing_search_titles (O : Oracle) (rng : list Z) (q : string)
  (c : Candidate) (cs : list Candidate) :
  1 <= String.length q <= 1000 ->
  produced O q (c :: cs) ->
  resp_sources (fst (run O rng q))
  = (if content_ok (o_content O (cand_title c))
     then Some (map cand_title (c :: cs)) else None)
  /\ (content_ok (o_content O (cand_title c)) = false ->
      resp_success (fst (run O rng q)) = false).
Proof.
  intros Hv Hp; destruct (body_produced O q rng _ Hv Hp) as [s E].
  destruct (o_content O (cand_title c)) as [m|[|] st pages] eqn:Hc.
  - destruct (answer_content_rej O q c cs s m Hc) as [s' A]; rewrite A in E.
    rewrite (run_result _ _ _ _ _ E); simpl; auto.
  - destruct (answer_content_ok O q c cs s st pages Hc) as (t & s' & A & _).
    rewrite A in E; rewrite (run_result _ _ _ _ _ E); simpl; split; [reflexivity|discriminate].
  - destruct (answer_content_not_ok O q c cs s st pages Hc) as [s' A]; rewrite A in E.
    rewrite (run_result _ _ _ _ _ E); simpl; auto.
Qed.

Lemma sources_are_producing_search_titles_witness :
  (1 <= String.length "What is quantum computing?" <= 1000
   /\ produced O_quantum "What is quantum computing?"
        [{| cand_title := "Quantum computing"; cand_snippet := "" |};
         {| cand_title := "Quantum mechanics"; cand_snippet := "" |}])
  /\ resp_sources (fst (run O_quantum [] "What is quantum computing?"))
     = Some ["Quantum computing"; "Quantum mechanics"].
Proof.
  assert (H1 : 1 <= String.length "What is quantum computing?" <= 1000) by (simpl; lia).
  assert (H2 : produced O_quantum "What is quantum computing?"
                 [{| cand_title := "Quantum computing"; cand_snippet := "" |};
                  {| cand_title := "Quantum mechanics"; cand_snippet := "" |}])
    by (apply (produced_original _ _ 200); reflexivity).
  split; [split; [exact H1|exact H2]|].
  exact (proj1 (sources_are_producing_search_titles O_quantum [] _ _ _ H1 H2)).
Defined.

(** Claim C4 (counterexample): the content query for the top candidate
    returns the not-found sentinel (page id -1, no extract), yet the handler
    answers with success and no error. *)
Lemma missing_page_answered_successfully :
  o_content O_missing_page "Quantum computing"
  = Responded true 200 [("-1", {| page_title := "Quantum computing";
                                   page_extract := None; page_fullurl := None |})]
  /\ resp_success (fst (run O_missing_page [] "What is quantum computing?")) = true
  /\ resp_error (fst (run O_missing_page [] "What is quantum computing?")) = None.
Proof. split; [reflexivity|split; vm_compute; reflexivity]. Qed.

(** Claim C4 (as amended): a failure of the original search call or of the
    content fetch (a throwing request or JSON decoding, or a non-success
    status), or a throwing fallback search call, aborts the handler with
    [success = false] and that error; a content response for a page that
    does not exist (no extract, as for the page id -1 sentinel) is answered
    with [success = true], the no-result text quoting the question, and the
    candidate titles as sources. *)
Theorem upstream_failures_abort (O : Oracle) (rng : list Z) (q : string) :
  1 <= String.length q <= 1000 ->
  (forall m, o_search O q = Rejected m -> fst (run O rng q) = failure (EError m))
  /\ (forall status b, o_search O q = Responded false status b ->
        fst (run O rng q)
        = failure (EError ("Wikipedia search failed: " ++ nat_to_dec status)))
  /\ (forall status m, o_search O q = Responded true status [] ->
        fallback_query O q <> q -> o_search O (fallback_query O q) = Rejected m ->
        fst (run O rng q) = failure (EError m))
  /\ (forall c cs, produced O q (c :: cs) ->
        (forall m, o_content O (cand_title c) = Rejected m ->
                   fst (run O rng q) = failure (EError m))
        /\ (forall status pages, o_content O (cand_title c) = Responded false status pages ->
              fst (run O rng q)
              = failure (EError ("Wikipedia content fetch failed: " ++ nat_to_dec status)))
        /\ (forall status pages p, o_content O (cand_title c) = Responded true status pages ->
              first_page pages = Some p -> page_extract p = None ->
              resp_success (fst (run O rng q)) = true
              /\ resp_sources (fst (run O rng q)) = Some (map cand_title (c :: cs))
              /\ exists t, resp_response (fst (run O rng q)) = Some t
                           /\ includes t (dq ++ q ++ dq) = true)).
Proof.
  intros Hv; split; [|split; [|split]].
  - intros m Hs.
    assert (B : exists s, process_body O q (init rng) = (Throw (EError m), s)).
    { unfold process_body; rewrite (bind_ok _ _ _ _ _ (validate_ok q _ Hv)).
      eexists; exact (bind_throw _ _ _ _ _ (fetch_search_rej _ _ _ _ Hs)). }
    destruct B as [s B]; now rewrite (run_result _ _ _ _ _ B).
  - intros status b Hs.
    assert (B : exists s, process_body O q (init rng)
              = (Throw (EError ("Wikipedia search failed: " ++ nat_to_dec status)), s)).
    { unfold process_body; rewrite (bind_ok _ _ _ _ _ (validate_ok q _ Hv)).
      rewrite (bind_ok _ _ _ _ _ (fetch_search_ok _ _ _ _ _ _ Hs)).
      eexists; reflexivity. }
    destruct B as [s B]; now rewrite (run_result _ _ _ _ _ B).
  - intros status m Hs Hne Hs2.
    assert (B : exists s, process_body O q (init rng) = (Throw (EError m), s)).
    { rewrite (body_after_search _ _ _ _ _ Hv Hs).
      eexists; exact (bind_throw _ _ _ _ _ (retry_rej _ _ _ _ Hne Hs2)). }
    destruct B as [s B]; now rewrite (run_result _ _ _ _ _ B).
  - intros c cs Hp; destruct (body_produced O q rng _ Hv Hp) as [s E].
    split; [|split].
    + intros m Hc; destruct (answer_content_rej O q c cs s m Hc) as [s' A].
      rewrite A in E; now rewrite (run_result _ _ _ _ _ E).
    + intros status pages Hc.
      destruct (answer_content_not_ok O q c cs s status pages Hc) as [s' A].
      rewrite A in E; now rewrite (run_result _ _ _ _ _ E).
    + intros status pages p Hc Hfirst Hnone.
      destruct (answer_content_ok O q c cs s status pages Hc) as (t & s' & A & G).
      rewrite A in E; rewrite (run_result _ _ _ _ _ E); simpl.
      split; [reflexivity|split; [reflexivity|]].
      exists t; split; [reflexivity|].
      rewrite Hfirst in G; unfold generateWikipediaResponse in G; rewrite Hnone in G.
      cbn [truthy] in G.
      destruct (no_result_quotes q (push s (ReqContent (cand_title c))))
        as (t' & s'' & G' & Hq & _).
      rewrite G in G'; injection G' as -> _; exact Hq.
Qed.

Lemma upstream_failures_abort_witness :
  1 <= String.length "What is quantum computing?" <= 1000
  /\ resp_sources (fst (run O_missing_page [] "What is quantum computing?"))
     = Some ["Quantum computing"].
Proof.
  assert (H : 1 <= String.length "What is quantum computing?" <= 1000) by (simpl; lia).
  split; [exact H|].
  destruct (upstream_failures_abort O_missing_page [] _ H) as (_ & _ & _ & H4).
  assert (Hp : produced O_missing_page "What is quantum computing?"
                 [{| cand_title := "Quantum computing"; cand_snippet := "" |}])
    by (apply (produced_original _ _ 200); reflexivity).
  destruct (H4 _ _ Hp) as (_ & _ & H6).
  exact (proj1 (proj2 (H6 200 _ _ eq_refl eq_refl eq_refl))).
Defined.

(** Claim C5: the answer synthesized from an article with an extract
    contains the sources header followed by one bullet for the article, a
    markdown link [[<title> on Wikipedia](<url>)] whose text holds the
    title and whose target is an https URL: the article's [fullurl] when
    the service gives one (an https URL), otherwise the article URL built
    from the title. *)
Theorem synthesized_answer_cites_article (q : string) (a : Page) (rs : list Candidate)
  (s : St) (ex : string) :
  truthy (page_extract a) = Some ex ->
  (forall u, truthy (page_fullurl a) = Some u -> startsWith u "https://" = true) ->
  exists t s', generateWikipediaResponse q (Some a) rs s = (Ok t, s')
    /\ includes t (sources_header ++ nl ++ bullet ++ "[" ++ page_title a
                   ++ " on Wikipedia](" ++ article_url a ++ ")") = true
    /\ startsWith (article_url a) "https://" = true.
Proof.
  intros Hex Hurl.
  destruct (gwr_with_extract q a rs s ex Hex) as (t & s' & E & Hi & _).
  exists t, s'; split; [exact E|split; [exact Hi|]].
  unfold article_url; destruct (truthy (page_fullurl a)) as [u|] eqn:U.
  - now apply Hurl.
  - reflexivity.
Qed.

Lemma synthesized_answer_cites_article_witness :
  (truthy (page_extract quantum_page)
   = Some ("Computers of the classical kind process bits that are either zero or one."
           ++ nl ++
           "Quantum computing is a type of computation that uses qubits and superposition.")
   /\ (forall u, truthy (page_fullurl quantum_page) = Some u ->
                 startsWith u "https://" = true))
  /\ exists t s', generateWikipediaResponse "What is quantum computing?" (Some quantum_page)
                    [] st0 = (Ok t, s')
                  /\ includes t (sources_header ++ nl ++ bullet ++ "[" ++ page_title quantum_page
                                 ++ " on Wikipedia](" ++ article_url quantum_page ++ ")") = true
                  /\ startsWith (article_url quantum_page) "https://" = true.
Proof.
  assert (H1 : truthy (page_extract quantum_page)
     = Some ("Computers of the classical kind process bits that are either zero or one."
             ++ nl ++
             "Quantum computing is a type of computation that uses qubits and superposition."))
    by reflexivity.
  assert (H2 : forall u, truthy (page_fullurl quantum_page) = Some u ->
                         startsWith u "https://" = true)
    by (intros u Hu; simpl in Hu; injection Hu as <-; reflexivity).
  split; [split; [exact H1|exact H2]|].
  exact (synthesized_answer_cites_article _ quantum_page [] st0 _ H1 H2).
Defined.

(** Claim C9: for a fixed (deterministic) service, two runs of the handler
    on the same question with any two random sources produce the same
    source titles and select the same passages; they also agree on success,
    on the error and on the requests sent, and differ at most in the wording
    of the response text. *)
Theorem runs_agree_up_to_wording (O : Oracle) (q : string) (rng1 rng2 : list Z) :
  resp_sources (fst (run O rng1 q)) = resp_sources (fst (run O rng2 q))
  /\ st_passages (snd (run O rng1 q)) = st_passages (snd (run O rng2 q))
  /\ resp_success (fst (run O rng1 q)) = resp_success (fst (run O rng2 q))
  /\ resp_error (fst (run O rng1 q)) = resp_error (fst (run O rng2 q))
  /\ st_calls (snd (run O rng1 q)) = st_calls (snd (run O rng2 q)).
Proof.
  pose proof (rel_processQuestion O q (init rng1) (init rng2) (conj eq_refl eq_refl)) as H.
  unfold run.
  destruct (processQuestion O q (init rng1)) as [[r1|e1] s1],
           (processQuestion O q (init rng2)) as [[r2|e2] s2];
    destruct H as [[Hc Hp] HR]; simpl in *; try contradiction.
  - destruct HR as (Hs & Hsrc & He); auto.
  - subst; auto.
Qed.

(** A question word repeated twice contributes twice. *)
Example score_repeated_word :
  score (queryWords "quantum QUANTUM basics") "Quantum physics and its basics" = 6.
Proof. vm_compute; reflexivity. Qed.

(** The spec's worked example: the passage selected for the quantum page
    puts the second paragraph first (the code keeps the top three, so the
    zero-score first paragraph follows it). *)
Example quantum_example_passage :
  st_passages (snd (run O_quantum [] "What is quantum computing?"))
  = ["Quantum computing is a type of computation that uses qubits and superposition."
     ++ blank_line ++
     "Computers of the classical kind process bits that are either zero or one."].
Proof. vm_compute; reflexivity. Qed.

(** ** Further properties of the routes, the client and the pipeline *)

Import Routes RouteScenarios.

Lemma split_char_aux_length (d : ascii) (s cur : string) :
  length (split_char_aux d s cur) = 1 + count_char d s.
Proof.
  revert cur; induction s as [|c s IH]; intros cur; simpl; [reflexivity|].
  destruct (Ascii.eqb c d); simpl; rewrite IH; lia.
Qed.

Lemma parse_search_limit (qp : QueryParams) (l : string) :
  qp_limit qp = Some l -> exists issues, parse_search qp = inl issues.
Proof.
  intros H; destruct qp as [q l']; simpl in H; subst l'; unfold parse_search; simpl.
  destruct q as [q|]; [|eauto].
  destruct (String.length q =? 0); simpl; [eauto|].
  destruct (500 <? String.length q); simpl; eauto.
Qed.

(** Search route (X1): unless [q] is a string of 1 to 500 characters and
    the query string has no [limit] parameter, the route answers 400 with
    a validation error and sends no request to Wikipedia. *)
Theorem search_route_rejects_invalid (W : RouteOracle) (qp : QueryParams) :
  ~ (exists q, qp_q qp = Some q /\ 1 <= String.length q <= 500 /\ qp_limit qp = None) ->
  exists issues, issues <> [] /\
    searchRoute W qp = (search_failure (RValidation issues), []).
Proof.
  intros H; unfold searchRoute, parse_search.
  destruct qp as [[q|] l]; simpl in *.
  - destruct (String.length q =? 0) eqn:E0; simpl.
    + eexists; split; [|reflexivity]; discriminate.
    + destruct (500 <? String.length q) eqn:E1; simpl.
      * eexists; split; [|reflexivity]; discriminate.
      * destruct l as [l|]; simpl.
        -- eexists; split; [|reflexivity]; discriminate.
        -- exfalso; apply H; exists q.
           apply Nat.eqb_neq in E0; apply Nat.ltb_ge in E1; repeat split; auto; lia.
  - eexists; split; [|reflexivity]; discriminate.
Qed.

Lemma search_route_rejects_invalid_witness :
  exists issues, issues <> [] /\
    searchRoute W_einstein {| qp_q := Some "Einstein"; qp_limit := Some "3" |}
    = (search_failure (RValidation issues), []).
Proof.
  apply search_route_rejects_invalid.
  intros (q & _ & _ & H); simpl in H; discriminate.
Defined.

(** Search route (X2): for a valid [q] and no [limit] parameter, the route
    sends exactly one search to Wikipedia, with the default [srlimit] of 5;
    a successful answer carries the hits of that search, [query] and
    [total] equal to their number, and any failure is a 400 with a message
    error and no results. *)
Theorem search_route_valid (W : RouteOracle) (q : string) :
  1 <= String.length q <= 500 ->
  let '(r, sent) := searchRoute W {| qp_q := Some q; qp_limit := None |} in
  sent = [WSearch q 5] /\
  (sr_success r = true ->
     sr_status r = 200 /\ sr_query r = Some q /\
     sr_total r = Some (length (sr_results r)) /\
     exists status, w_search W q 5 = Responded true status (sr_results r)) /\
  (sr_success r = false ->
     sr_status r = 400 /\ sr_results r = [] /\ exists m, sr_error r = Some (RMessage m)).
Proof.
  intros H; unfold searchRoute, parse_search; simpl.
  destruct (String.length q =? 0) eqn:E0; [apply Nat.eqb_eq in E0; lia|].
  destruct (500 <? String.length q) eqn:E1; [apply Nat.ltb_lt in E1; lia|]; simpl.
  destruct (w_search W q 5) as [m|ok st hits] eqn:Ew.
  - repeat split; try intros Hs; try discriminate; repeat split; simpl; eauto.
  - destruct ok; simpl;
      repeat split; try intros Hs; try discriminate; repeat split; simpl; eauto.
Qed.

Lemma search_route_valid_witness :
  1 <= String.length "Einstein" <= 500 /\
  let '(r, sent) := searchRoute W_einstein {| qp_q := Some "Einstein"; qp_limit := None |} in
  sent = [WSearch "Einstein" 5] /\
  (sr_success r = true ->
     sr_status r = 200 /\ sr_query r = Some "Einstein" /\
     sr_total r = Some (length (sr_results r)) /\
     exists status, w_search W_einstein "Einstein" 5 = Responded true status (sr_results r)) /\
  (sr_success r = false ->
     sr_status r = 400 /\ sr_results r = [] /\ exists m, sr_error r = Some (RMessage m)).
Proof.
  split; [simpl; lia|].
  apply (search_route_valid W_einstein "Einstein"); simpl; lia.
Defined.

(** Client search against the route (X3): [wikipediaAPI.search] always
    sends a [limit] parameter, which the route's schema refuses (a query
    string value is a string, not a number); so the route sends nothing to
    Wikipedia and the client always returns an unsuccessful, empty result
    with the error "HTTP error! status: 400", whatever the query. *)
Theorem client_search_always_fails (W : RouteOracle) (query : string) (limit : nat) :
  snd (searchRoute W {| qp_q := Some query; qp_limit := Some (nat_to_dec limit) |}) = []
  /\ client_search (fun qp => fst (searchRoute W qp)) query limit
     = {| cs_success := false; cs_results := []; cs_query := Some query; cs_total := Some 0;
          cs_error := Some (inr "HTTP error! status: 400") |}.
Proof.
  destruct (parse_search_limit {| qp_q := Some query; qp_limit := Some (nat_to_dec limit) |}
              (nat_to_dec limit) eq_refl) as [issues Hp].
  unfold client_search, searchRoute; rewrite Hp; split; reflexivity.
Qed.

(** Article route (X4): without a [title] parameter or with an empty one
    the route answers 400 with a validation error and sends no request. *)
Theorem article_route_rejects_missing_title (W : RouteOracle) (title : option string) :
  title = None \/ title = Some EmptyString ->
  exists issues, issues <> [] /\
    articleRoute W title = (article_failure 400 (RValidation issues), []).
Proof.
  intros [-> | ->]; eexists; (split; [|reflexivity]); discriminate.
Qed.

Lemma article_route_rejects_missing_title_witness :
  exists issues, issues <> [] /\
    articleRoute W_einstein (Some EmptyString) = (article_failure 400 (RValidation issues), []).
Proof. apply article_route_rejects_missing_title; right; reflexivity. Defined.

(** Article route (X5): for a non-empty title the route sends one content
    request for it, and answers 404 exactly when Wikipedia answers
    successfully with the page map whose first key is "-1". *)
Theorem article_route_not_found_iff (W : RouteOracle) (t : string) :
  1 <= String.length t ->
  snd (articleRoute W (Some t)) = [WArticle t] /\
  (ar_status (fst (articleRoute W (Some t))) = 404 <->
   exists status page rest, w_article W t = Responded true status (("-1", page) :: rest)).
Proof.
  intros H; unfold articleRoute, parse_article.
  destruct (String.length t =? 0) eqn:E0; [apply Nat.eqb_eq in E0; lia|].
  destruct (w_article W t) as [m|ok st pages] eqn:Ew.
  - split; [reflexivity|]; simpl; split; [discriminate|].
    intros (? & ? & ? & ?); discriminate.
  - destruct ok; simpl.
    + destruct pages as [|[pid page] rest]; simpl.
      * split; [reflexivity|]; split; [discriminate|].
        intros (? & ? & ? & E); discriminate.
      * destruct (String.eqb pid "-1") eqn:Ep; simpl.
        -- apply String.eqb_eq in Ep; subst pid.
           split; [reflexivity|]; split; [intros _; eauto|reflexivity].
        -- split; [reflexivity|]; split; [discriminate|].
           intros (? & ? & ? & E); injection E; intros; subst.
           rewrite String.eqb_refl in Ep; discriminate.
    + split; [reflexivity|]; split; [discriminate|].
      intros (? & ? & ? & E); discriminate.
Qed.

Lemma article_route_not_found_iff_witness :
  1 <= String.length "Atlantis (real)" /\
  snd (articleRoute W_missing (Some "Atlantis (real)")) = [WArticle "Atlantis (real)"] /\
  (ar_status (fst (articleRoute W_missing (Some "Atlantis (real)"))) = 404 <->
   exists status page rest,
     w_article W_missing "Atlantis (real)" = Responded true status (("-1", page) :: rest)).
Proof. split; [simpl; lia|]. apply article_route_not_found_iff; simpl; lia. Defined.

(** Article route (X6): an empty page map is not reported as a missing
    article: reading [page.categories] of [undefined] throws, and the route
    answers 400 with that [TypeError]'s message. *)
Theorem article_route_empty_pages (W : RouteOracle) (t : string) (status : nat) :
  1 <= String.length t ->
  w_article W t = Responded true status [] ->
  articleRoute W (Some t)
  = (article_failure 400 (RMessage undefined_categories_message), [WArticle t]).
Proof.
  intros H Hw; unfold articleRoute, parse_article.
  destruct (String.length t =? 0) eqn:E0; [apply Nat.eqb_eq in E0; lia|].
  now rewrite Hw.
Qed.

Lemma article_route_empty_pages_witness :
  1 <= String.length "Einstein" /\
  w_article W_no_pages "Einstein" = Responded true 200 [] /\
  articleRoute W_no_pages (Some "Einstein")
  = (article_failure 400 (RMessage undefined_categories_message), [WArticle "Einstein"]).
Proof.
  split; [simpl; lia|]; split; [reflexivity|].
  apply (article_route_empty_pages W_no_pages "Einstein" 200); [simpl; lia|reflexivity].
Defined.

(** [wordCount] (X7): the word count reported for an article is the number
    of space characters of its extract plus one (so runs of spaces count
    extra words), and 0 when the extract is missing or empty. *)
Theorem wordCount_spaces (extract : option string) :
  wordCount extract
  = match extract with
    | Some (String c s) => 1 + count_char (ascii_of_nat 32) (String c s)
    | _ => 0
    end.
Proof.
  unfold wordCount, truthy, split_char.
  destruct extract as [[|c s]|]; [reflexivity| |reflexivity].
  apply split_char_aux_length.
Qed.

(** Article route (X8): a successful answer lists at most five categories,
    the first ones of the page, and reports the page's title, extract and
    word count; the page is the first of a successful Wikipedia answer,
    and its key is not "-1". *)
Theorem article_route_success (W : RouteOracle) (t : string) (r : ArticleResp)
  (sent : list WikiRequest) :
  articleRoute W (Some t) = (r, sent) ->
  ar_success r = true ->
  exists status pid page rest a,
    w_article W t = Responded true status ((pid, page) :: rest) /\ pid <> "-1" /\
    ar_status r = 200 /\ ar_article r = Some a /\
    length (ao_categories a) <= 5 /\
    ao_categories a = firstn 5 (match ap_categories page with Some cs => cs | None => [] end) /\
    ao_title a = ap_title page /\ ao_extract a = ap_extract page /\
    ao_wordCount a = wordCount (ap_extract page).
Proof.
  unfold articleRoute, parse_article.
  destruct (String.length t =? 0); [intros [= <- _]; discriminate|].
  destruct (w_article W t) as [m|ok st pages]; [intros [= <- _]; discriminate|].
  destruct ok; cbn [negb]; [|intros [= <- _]; discriminate].
  destruct pages as [|[pid page] rest]; [intros [= <- _]; discriminate|].
  destruct (String.eqb pid "-1") eqn:Ep; [intros [= <- _]; discriminate|].
  intros [= <- _] _.
  exists st, pid, page, rest; eexists.
  split; [reflexivity|]; split; [intros ->; discriminate|].
  split; [reflexivity|]; split; [reflexivity|].
  cbn [ao_categories ao_title ao_extract ao_wordCount].
  split; [exact (firstn_le_length 5 _)|]; auto.
Qed.

Lemma article_route_success_witness :
  articleRoute W_einstein (Some "Albert Einstein")
  = (fst (articleRoute W_einstein (Some "Albert Einstein")), [WArticle "Albert Einstein"]) /\
  ar_success (fst (articleRoute W_einstein (Some "Albert Einstein"))) = true /\
  exists status pid page rest a,
    w_article W_einstein "Albert Einstein" = Responded true status ((pid, page) :: rest) /\
    pid <> "-1" /\
    ar_status (fst (articleRoute W_einstein (Some "Albert Einstein"))) = 200 /\
    ar_article (fst (articleRoute W_einstein (Some "Albert Einstein"))) = Some a /\
    length (ao_categories a) <= 5 /\
    ao_categories a = firstn 5 (match ap_categories page with Some cs => cs | None => [] end) /\
    ao_title a = ap_title page /\ ao_extract a = ap_extract page /\
    ao_wordCount a = wordCount (ap_extract page).
Proof.
  split; [reflexivity|]; split; [reflexivity|].
  apply (article_route_success W_einstein "Albert Einstein" _ [WArticle "Albert Einstein"]);
    reflexivity.
Defined.

Lemma bind_ok_inv {A B} (m : M A) (k : A -> M B) (s : St) (b : B) (s' : St) :
  bind m k s = (Ok b, s') -> exists a s1, m s = (Ok a, s1) /\ k a s1 = (Ok b, s').
Proof. unfold bind; destruct (m s) as [[a|e] s1]; intros H; [eauto|discriminate]. Qed.

Lemma app_nonempty_l (a b : string) : a <> EmptyString -> a ++ b <> EmptyString.
Proof. destruct a; simpl; [auto|discriminate]. Qed.

Lemma app_nonempty_r (a b : string) : b <> EmptyString -> a ++ b <> EmptyString.
Proof. destruct a; simpl; [auto|discriminate]. Qed.

Lemma no_result_nonempty (q : string) (s : St) (t : string) (s' : St) :
  generateNoResultResponse q s = (Ok t, s') -> t <> EmptyString.
Proof.
  unfold generateNoResultResponse; intros H.
  apply bind_ok_inv in H as (i & s1 & _ & H); injection H as <- _.
  apply app_nonempty_r; discriminate.
Qed.

Lemma gwr_nonempty (q : string) (a : option Page) (rs : list Candidate) (s : St)
  (t : string) (s' : St) :
  generateWikipediaResponse q a rs s = (Ok t, s') -> t <> EmptyString.
Proof.
  unfold generateWikipediaResponse.
  destruct a as [a|]; [|apply no_result_nonempty].
  destruct (truthy (page_extract a)) as [ex|]; [|apply no_result_nonempty].
  intros H; apply bind_ok_inv in H as (u & s1 & _ & H).
  apply bind_ok_inv in H as (conv & s2 & _ & H); injection H as <- _.
  destruct (1 <? length rs); apply app_nonempty_r; discriminate.
Qed.

(** A response of the handler's [try] block is a successful one with a
    non-empty text. *)
Lemma answer_ok_shape (O : Oracle) (q : string) (rs : list Candidate) (s : St)
  (r : Response) (s' : St) :
  answer O q rs s = (Ok r, s') ->
  resp_success r = true /\ exists t, resp_response r = Some t /\ t <> EmptyString.
Proof.
  unfold answer; destruct rs as [|c cs]; intros H.
  - apply bind_ok_inv in H as (t & s1 & Ht & H); injection H as <- _.
    split; [reflexivity|]; exists t; split; [reflexivity|].
    exact (no_result_nonempty _ _ _ _ Ht).
  - apply bind_ok_inv in H as ([[cok cst] pages] & s1 & _ & H).
    destruct cok; cbn [negb] in H; [|discriminate].
    apply bind_ok_inv in H as (t & s2 & Ht & H); injection H as <- _.
    split; [reflexivity|]; exists t; split; [reflexivity|].
    exact (gwr_nonempty _ _ _ _ _ _ Ht).
Qed.

Lemma body_ok_shape (O : Oracle) (q : string) (s : St) (r : Response) (s' : St) :
  process_body O q s = (Ok r, s') ->
  resp_success r = true /\ exists t, resp_response r = Some t /\ t <> EmptyString.
Proof.
  unfold process_body; intros H.
  apply bind_ok_inv in H as (q' & s1 & _ & H).
  apply bind_ok_inv in H as ([[ok st] rs0] & s2 & _ & H).
  destruct ok; cbn [negb] in H; [|discriminate].
  apply bind_ok_inv in H as (rs & s3 & _ & H).
  exact (answer_ok_shape _ _ _ _ _ _ H).
Qed.

(** Client [processQuestion] against the route (X9): the client returns the
    route's answer when the handler succeeds; whenever the handler fails
    (validation, Wikipedia unreachable or failing), the route answers 500
    and the client replaces the server's error message by
    "HTTP error! status: 500". *)
Theorem client_process_hides_server_error (O : Oracle) (rng : list Z) (q : string) :
  client_processQuestion (process_route O rng) q
  = if resp_success (fst (run O rng q)) then process_body_json (fst (run O rng q))
    else {| cp_success := false; cp_response := None; cp_sources := None;
            cp_error := Some (inr "HTTP error! status: 500") |}.
Proof.
  unfold client_processQuestion, process_route, run, processQuestion, catch.
  destruct (process_body O q (init rng)) as [[r|e] s] eqn:E.
  - destruct (body_ok_shape _ _ _ _ _ E) as [Hs _].
    simpl; now rewrite Hs.
  - reflexivity.
Qed.

(** [getArticleDirect] (X10): the direct article lookup returns [null]
    exactly when the request fails, the page map is empty, or its first key
    is "-1"; the HTTP status is not looked at. *)
Theorem getArticleDirect_null
  (content : string -> Outcome (list (string * ArticlePage))) (t : string) :
  getArticleDirect content t = None <->
  (exists m, content t = Rejected m) \/
  (exists ok status, content t = Responded ok status []) \/
  (exists ok status page rest, content t = Responded ok status (("-1", page) :: rest)).
Proof.
  unfold getArticleDirect.
  destruct (content t) as [m|ok st pages].
  - split; [eauto|reflexivity].
  - destruct pages as [|[pid page] rest].
    + split; [eauto 6|reflexivity].
    + destruct (String.eqb pid "-1") eqn:Ep.
      * apply String.eqb_eq in Ep; subst pid; split; [eauto 8|reflexivity].
      * split; [discriminate|].
        intros [(? & E) | [(? & ? & E) | (? & ? & ? & ? & E)]]; try discriminate.
        injection E; intros; subst; rewrite String.eqb_refl in Ep; discriminate.
Qed.

(** Chat hook (X11): for a non-blank question that the handler answers
    successfully, the assistant message is the handler's text, with its
    sources and the question as metadata; the direct Wikipedia queries play
    no part and the random source is not read. *)
Theorem chat_shows_server_answer (O : Oracle) (rng : list Z)
  (search : string -> nat -> Outcome (list SearchHit))
  (content : string -> Outcome (list (string * ArticlePage))) (q : string) (s : St) :
  trim q <> EmptyString ->
  resp_success (fst (run O rng q)) = true ->
  exists t, resp_response (fst (run O rng q)) = Some t /\
    Chat.sendMessage_reply {| Chat.ce_process := client_processQuestion (process_route O rng);
                              Chat.ce_search := search; Chat.ce_content := content |} q s
    = (Ok (Some {| Chat.reply_text := t;
                   Chat.reply_meta := Some {| Chat.meta_sources := resp_sources (fst (run O rng q));
                                              Chat.meta_searchQuery := q |} |}), s).
Proof.
  intros Hq Hs.
  unfold run, processQuestion, catch in Hs.
  destruct (process_body O q (init rng)) as [[r|e] s1] eqn:E; [|discriminate].
  destruct (body_ok_shape _ _ _ _ _ E) as [Hsucc (t & Ht & Hne)].
  rewrite (run_result O rng q _ _ E); cbn [fst].
  exists t; split; [exact Ht|].
  unfold Chat.sendMessage_reply; apply String.eqb_neq in Hq; rewrite Hq.
  cbn [Chat.ce_process]; unfold client_processQuestion, process_route; rewrite E.
  simpl; rewrite Hsucc, Ht; simpl.
  destruct t as [|c t]; [contradiction|reflexivity].
Qed.

Lemma chat_shows_server_answer_witness :
  exists t, resp_response (fst (run O_quantum [] "What is quantum computing?")) = Some t /\
    Chat.sendMessage_reply
      {| Chat.ce_process := client_processQuestion (process_route O_quantum []);
         Chat.ce_search := w_search W_einstein; Chat.ce_content := w_article W_einstein |}
      "What is quantum computing?" st0
    = (Ok (Some {| Chat.reply_text := t;
                   Chat.reply_meta :=
                     Some {| Chat.meta_sources :=
                               resp_sources (fst (run O_quantum [] "What is quantum computing?"));
                             Chat.meta_searchQuery := "What is quantum computing?" |} |}), st0).
Proof.
  apply chat_shows_server_answer; [vm_compute; discriminate | vm_compute; reflexivity].
Defined.

Lemma pure_rng_client_conversational (c : string) : pure_rng (Chat.makeContentConversational c).
Proof.
  unfold Chat.makeContentConversational.
  apply pure_rng_bind; [apply pure_rng_mapM, pure_rng_rephrase|intros].
  apply pure_rng_bind; [apply pure_rng_rand_index|intros; apply pure_rng_ret].
Qed.

Lemma fallback_cites (q : string) (a : DirectArticle) (rs : list SearchHit) (s : St) (ex : string) :
  da_extract a = Some ex ->
  exists t s', Chat.generateFallbackResponse q a rs s = (Ok t, s')
    /\ includes t (sources_header ++ nl ++ source_bullet (da_title a) (da_url a)) = true.
Proof.
  intros Hex; unfold Chat.generateFallbackResponse; rewrite Hex; cbv beta zeta.
  destruct (pure_rng_rand_index (length conversationalIntros) s) as (i & s1 & E1 & _).
  rewrite (bind_ok _ _ _ _ _ E1).
  match goal with
  | |- context [bind (Chat.makeContentConversational ?c) _ s1] =>
      destruct (pure_rng_client_conversational c s1) as (pc & s2 & E2 & _)
  end.
  rewrite (bind_ok _ _ _ _ _ E2).
  destruct (pure_rng_rand_index (length Chat.conclusions) s2) as (j & s3 & E3 & _).
  rewrite (bind_ok _ _ _ _ _ E3).
  eexists; exists s3; split; [reflexivity|].
  destruct (1 <? length rs); rewrite !append_assoc_str;
    repeat (first [apply includes_three | apply includes_app_l]).
Qed.

(** Chat hook (X12): when the handler's answer is unusable and the direct
    search finds a page, an article without [extract] makes
    [generateFallbackResponse] throw, and the message added is the
    connection apology, without sources, even though Wikipedia answered. *)
Theorem chat_apology_without_extract (E : Chat.ClientEnv) (q : string) (s : St)
  (hit : SearchHit) (rest : list SearchHit) (a : DirectArticle) :
  trim q <> EmptyString ->
  cp_success (Chat.ce_process E q) = false ->
  Chat.searchDirect (Chat.ce_search E) q 3 = hit :: rest ->
  getArticleDirect (Chat.ce_content E) (hit_title hit) = Some a ->
  da_extract a = None ->
  Chat.sendMessage_reply E q s
  = (Ok (Some {| Chat.reply_text := Chat.apology; Chat.reply_meta := None |}), s).
Proof.
  intros Hq Hp Hs Ha Hx.
  unfold Chat.sendMessage_reply; apply String.eqb_neq in Hq; rewrite Hq.
  unfold catch; rewrite Hp, Hs, Ha.
  unfold bind, Chat.generateFallbackResponse; rewrite Hx; reflexivity.
Qed.

Lemma chat_apology_without_extract_witness :
  Chat.sendMessage_reply E_bare "Who was Einstein?" st0
  = (Ok (Some {| Chat.reply_text := Chat.apology; Chat.reply_meta := None |}), st0).
Proof.
  apply (chat_apology_without_extract E_bare "Who was Einstein?" st0 einstein_hit []
           {| da_title := "Albert Einstein"; da_extract := None;
              da_url := "https://en.wikipedia.org/wiki/Albert_Einstein"; da_wordCount := 0 |});
    [vm_compute; discriminate | reflexivity | reflexivity | reflexivity | reflexivity].
Defined.

(** Chat hook (X13): when the handler's answer is unusable and the direct
    search finds a page with an extract, the message cites that article
    (the sources header followed by its bullet with the article's URL) and
    lists the titles of the direct search results as its sources. *)
Theorem chat_fallback_cites_article (E : Chat.ClientEnv) (q : string) (s : St)
  (hit : SearchHit) (rest : list SearchHit) (a : DirectArticle) (ex : string) :
  trim q <> EmptyString ->
  cp_success (Chat.ce_process E q) = false ->
  Chat.searchDirect (Chat.ce_search E) q 3 = hit :: rest ->
  getArticleDirect (Chat.ce_content E) (hit_title hit) = Some a ->
  da_extract a = Some ex ->
  exists t s', Chat.sendMessage_reply E q s
    = (Ok (Some {| Chat.reply_text := t;
                   Chat.reply_meta := Some {| Chat.meta_sources := Some (map hit_title (hit :: rest));
                                              Chat.meta_searchQuery := q |} |}), s')
    /\ includes t (sources_header ++ nl ++ source_bullet (da_title a) (da_url a)) = true.
Proof.
  intros Hq Hp Hs Ha Hx.
  destruct (fallback_cites q a (hit :: rest) s ex Hx) as (t & s' & Et & Hi).
  exists t, s'; split; [|exact Hi].
  unfold Chat.sendMessage_reply; apply String.eqb_neq in Hq; rewrite Hq.
  unfold catch; rewrite Hp, Hs, Ha.
  unfold bind at 1; rewrite Et; reflexivity.
Qed.

Lemma chat_fallback_cites_article_witness :
  exists t s', Chat.sendMessage_reply
                 {| Chat.ce_process := Chat.ce_process E_bare;
                    Chat.ce_search := w_search W_einstein;
                    Chat.ce_content := w_article W_einstein |} "Who was Einstein?" st0
    = (Ok (Some {| Chat.reply_text := t;
                   Chat.reply_meta := Some {| Chat.meta_sources := Some ["Albert Einstein"];
                                              Chat.meta_searchQuery := "Who was Einstein?" |} |}), s')
    /\ includes t (sources_header ++ nl
                   ++ source_bullet "Albert Einstein" "https://en.wikipedia.org/wiki/Albert_Einstein")
       = true.
Proof.
  apply (chat_fallback_cites_article _ "Who was Einstein?" st0 einstein_hit []
           {| da_title := "Albert Einstein"; da_extract := ap_extract einstein_page;
              da_url := "https://en.wikipedia.org/wiki/Albert_Einstein";
              da_wordCount := wordCount (ap_extract einstein_page) |}
           "Albert Einstein was a German-born theoretical physicist.");
    [vm_compute; discriminate | reflexivity | reflexivity | reflexivity | reflexivity].
Defined.

Lemma answer_calls (O : Oracle) (q : string) (rs : list Candidate) (s : St) :
  st_calls (snd (answer O q rs s))
  = (st_calls s ++ match rs with [] => [] | c :: _ => [ReqContent (cand_title c)] end)%list.
Proof.
  destruct rs as [|c cs].
  - destruct (pure_rng_no_result q s) as (t & s' & E & C & _).
    unfold answer; rewrite (bind_ok _ _ _ _ _ E); simpl; now rewrite C, app_nil_r.
  - destruct (o_content O (cand_title c)) as [m|ok st pages] eqn:H.
    + unfold answer; now rewrite (bind_throw _ _ _ _ _ (fetch_content_rej _ _ _ _ H)).
    + simpl; rewrite (bind_ok _ _ _ _ _ (fetch_content_ok _ _ _ _ _ _ H)).
      destruct ok; cbn [negb]; [|reflexivity].
      destruct (gwr_total q (first_page pages) (c :: cs) (push s (ReqContent (cand_title c))))
        as (t & s' & E & C & _).
      rewrite (bind_ok _ _ _ _ _ E); simpl; exact C.
Qed.

(** Handler (X14): the requests one question sends to Wikipedia follow one
    of six patterns: the first 0 to 3 of (search of the question,
    opensearch of it, search of the spelling fallback), or one of the two
    searches that produced the candidates followed by a single content
    request for the first candidate's title. At most one article is
    fetched, and never before a search has returned candidates. *)
Theorem process_requests (O : Oracle) (rng : list Z) (q : string) :
  let calls := st_calls (snd (run O rng q)) in
  (exists n, n <= 3 /\
     calls = firstn n [ReqSearch q; ReqOpensearch q; ReqSearch (fallback_query O q)]) \/
  (exists c cs, produced O q (c :: cs) /\
     (calls = [ReqSearch q; ReqContent (cand_title c)] \/
      calls = [ReqSearch q; ReqOpensearch q; ReqSearch (fallback_query O q);
               ReqContent (cand_title c)])).
Proof.
  cbv zeta.
  destruct (process_body O q (init rng)) as [r s] eqn:Eb.
  rewrite (run_result O rng q r s Eb); cbn [snd].
  destruct (Nat.eq_dec (String.length q) 0) as [H0|H0];
    [|destruct (Nat.lt_ge_cases 1000 (String.length q)) as [H1|H1]].
  1, 2:
    destruct (validate_err q (init rng)) as (issue & Ev); [lia|];
    unfold process_body in Eb; rewrite (bind_throw _ _ _ _ _ Ev) in Eb;
    injection Eb as _ <-; left; exists 0; split; [lia|reflexivity].
  assert (Hv : 1 <= String.length q <= 1000) by lia.
  destruct (o_search O q) as [m|ok st b] eqn:Hs.
  - unfold process_body in Eb; rewrite (bind_ok _ _ _ _ _ (validate_ok q _ Hv)) in Eb.
    rewrite (bind_throw _ _ _ _ _ (fetch_search_rej _ _ _ _ Hs)) in Eb.
    injection Eb as _ <-; left; exists 1; split; [lia|reflexivity].
  - destruct ok.
    2:{ unfold process_body in Eb; rewrite (bind_ok _ _ _ _ _ (validate_ok q _ Hv)) in Eb.
        rewrite (bind_ok _ _ _ _ _ (fetch_search_ok _ _ _ _ _ _ Hs)) in Eb.
        cbn [negb] in Eb; injection Eb as _ <-; left; exists 1; split; [lia|reflexivity]. }
    rewrite (body_after_search _ _ _ _ _ Hv Hs) in Eb.
    destruct b as [|c cs].
    + destruct (string_dec (fallback_query O q) q) as [Hf|Hf].
      * rewrite (bind_ok _ _ _ _ _ (retry_same _ _ _ Hf)) in Eb.
        pose proof (answer_calls O q [] (push (push (init rng) (ReqSearch q)) (ReqOpensearch q)))
          as C; rewrite Eb in C; cbn [snd] in C; rewrite C.
        left; exists 2; split; [lia|reflexivity].
      * destruct (o_search O (fallback_query O q)) as [m|ok' st' b'] eqn:Hs2.
        -- rewrite (bind_throw _ _ _ _ _ (retry_rej _ _ _ _ Hf Hs2)) in Eb.
           injection Eb as _ <-; left; exists 3; split; [lia|reflexivity].
        -- rewrite (bind_ok _ _ _ _ _ (retry_diff _ _ _ _ _ _ Hf Hs2)) in Eb.
           pose proof (answer_calls O q b'
                         (push (push (push (init rng) (ReqSearch q)) (ReqOpensearch q))
                            (ReqSearch (fallback_query O q)))) as C.
           rewrite Eb in C; cbn [snd] in C; rewrite C.
           destruct b' as [|c cs].
           ++ left; exists 3; split; [lia|reflexivity].
           ++ right; exists c, cs; split; [|right; reflexivity].
              exact (produced_fallback O q st ok' st' c cs Hs Hf Hs2).
    + rewrite (bind_ok _ _ _ _ _ (retry_nonempty _ _ _ _ _)) in Eb.
      pose proof (answer_calls O q (c :: cs) (push (init rng) (ReqSearch q))) as C.
      rewrite Eb in C; cbn [snd] in C; rewrite C.
      right; exists c, cs; split; [|left; reflexivity].
      exact (produced_original O q st c cs Hs).
Qed.

Lemma toLowerCase_app (a b : string) : toLowerCase (a ++ b) = toLowerCase a ++ toLowerCase b.
Proof. induction a as [|c a IH]; simpl; [reflexivity|now rewrite IH]. Qed.

Lemma toLowerCase_idem (s : string) : toLowerCase (toLowerCase s) = toLowerCase s.
Proof. induction s as [|c s IH]; simpl; [reflexivity|now rewrite lower_char_idem, IH]. Qed.

Lemma replace_word_lower (w r : string) (prev : bool) (skip : nat) (s : string) :
  toLowerCase r = r -> toLowerCase s = s ->
  toLowerCase (replace_word w r prev skip s) = replace_word w r prev skip s.
Proof.
  intros Hr; revert prev skip; induction s as [|c s IH]; intros prev skip Hs;
    [reflexivity|].
  simpl in Hs; injection Hs as Hc Hs.
  destruct skip as [|k]; simpl.
  - destruct (match_at w prev (String c s)).
    + rewrite toLowerCase_app, Hr, IH; auto.
    + simpl; rewrite Hc, IH; auto.
  - apply IH; exact Hs.
Qed.

Lemma corrections_lower :
  Forall (fun wr : string * string => toLowerCase (snd wr) = snd wr) corrections.
Proof. repeat constructor. Qed.

(** Dictionary (X15): the spelling dictionary step always returns an
    all-lower-case string: the query is lower-cased first and every
    replacement word is lower-case. *)
Theorem correctCommonMisspellings_lower (q : string) :
  toLowerCase (correctCommonMisspellings q) = correctCommonMisspellings q.
Proof.
  unfold correctCommonMisspellings.
  generalize (toLowerCase_idem q); generalize (toLowerCase q).
  induction corrections_lower as [|[w r] l Hwr _ IH]; intros acc Hacc; simpl; [exact Hacc|].
  apply IH; unfold regex_replace_word; apply replace_word_lower; auto.
Qed.

(** Descending order of scores. *)
Lemma insert_desc_perm (x : Scored) (l : list Scored) :
  Permutation (insert_desc x l) (x :: l).
Proof.
  induction l as [|y l IH]; simpl; [reflexivity|].
  destruct (sc_score y <=? sc_score x); [reflexivity|].
  rewrite IH; apply perm_swap.
Qed.

Lemma sort_desc_perm (l : list Scored) : Permutation (sort_desc l) l.
Proof.
  induction l as [|x l IH]; simpl; [reflexivity|].
  rewrite insert_desc_perm; now apply perm_skip.
Qed.

Lemma insert_desc_sorted (x : Scored) (l : list Scored) :
  StronglySorted (fun a b => sc_score b <= sc_score a) l ->
  StronglySorted (fun a b => sc_score b <= sc_score a) (insert_desc x l).
Proof.
  induction l as [|y l IH]; intros H; simpl.
  - repeat constructor.
  - apply StronglySorted_inv in H as [Hl Hy].
    destruct (sc_score y <=? sc_score x) eqn:E.
    + apply Nat.leb_le in E.
      constructor; [constructor; assumption|].
      constructor; [exact E|].
      eapply Forall_impl; [|exact Hy]; simpl; intros z Hz; lia.
    + apply Nat.leb_gt in E.
      constructor; [now apply IH|].
      apply Forall_insert_desc; [simpl; lia|exact Hy].
Qed.

Lemma sort_desc_sorted (l : list Scored) :
  StronglySorted (fun a b => sc_score b <= sc_score a) (sort_desc l).
Proof.
  induction l as [|x l IH]; simpl; [constructor|]; now apply insert_desc_sorted.
Qed.

Lemma StronglySorted_app_inv {A} (R : A -> A -> Prop) (a b : list A) :
  StronglySorted R (a ++ b) ->
  StronglySorted R a /\ Forall (fun x => Forall (R x) b) a.
Proof.
  induction a as [|x a IH]; simpl; intros H; [split; constructor|].
  apply StronglySorted_inv in H as [H Hx].
  apply Forall_app in Hx as [Hxa Hxb].
  destruct (IH H) as [Ha Hab].
  split; constructor; auto.
Qed.

(** Relevance extractor (X16): when some paragraph contains a question
    token, the extractor returns the three highest-scoring paragraphs
    (all of them when there are fewer), trimmed, in descending order of
    score and joined by a blank line: [sel] are the selected scored
    paragraphs and [rest] the others, and every selected score is at least
    every score left out. *)
Theorem extractRelevantContent_top3 (paragraphs : list string) (question : string) :
  (exists p, In p paragraphs /\ 0 < score (queryWords question) p) ->
  exists sel rest,
    extractRelevantContent paragraphs question = join blank_line (map sc_paragraph sel) /\
    Permutation (sel ++ rest)
      (map (fun p => {| sc_paragraph := trim p;
                        sc_score := score (queryWords question) p |}) paragraphs) /\
    length sel = Nat.min 3 (length paragraphs) /\
    StronglySorted (fun a b => sc_score b <= sc_score a) sel /\
    Forall (fun x => Forall (fun y => sc_score y <= sc_score x) rest) sel.
Proof.
  intros (p & Hp & Hpos).
  set (scored := map (fun p => {| sc_paragraph := trim p;
                                  sc_score := score (queryWords question) p |}) paragraphs).
  exists (firstn 3 (sort_desc scored)), (skipn 3 (sort_desc scored)).
  pose proof (sort_desc_sorted scored) as Hsort.
  rewrite <- (firstn_skipn 3 (sort_desc scored)) in Hsort.
  apply StronglySorted_app_inv in Hsort as [Hsel Hge].
  assert (Hperm : Permutation (firstn 3 (sort_desc scored) ++ skipn 3 (sort_desc scored)) scored)
    by (rewrite firstn_skipn; apply sort_desc_perm).
  split; [|split; [exact Hperm|split; [|split; assumption]]].
  - unfold extractRelevantContent; fold scored.
    assert (Hin : In {| sc_paragraph := trim p; sc_score := score (queryWords question) p |}
                     (firstn 3 (sort_desc scored) ++ skipn 3 (sort_desc scored))).
    { apply (Permutation_in _ (Permutation_sym Hperm)).
      apply in_map_iff; exists p; auto. }
    destruct (firstn 3 (sort_desc scored)) as [|top sel'] eqn:Ef.
    + exfalso.
      assert (Hl : length (sort_desc scored) = 0).
      { destruct (sort_desc scored); [reflexivity|discriminate]. }
      rewrite (Permutation_length (sort_desc_perm scored)) in Hl.
      unfold scored in Hl; rewrite length_map in Hl.
      destruct paragraphs; [contradiction|discriminate].
    + replace (sc_score top =? 0) with false; [reflexivity|].
      symmetry; apply Nat.eqb_neq.
      apply StronglySorted_inv in Hsel as [_ Htop].
      inversion Hge as [|? ? Hrest _]; subst.
      apply in_app_or in Hin as [[Hin|Hin]|Hin].
      * subst top; simpl; lia.
      * rewrite Forall_forall in Htop; specialize (Htop _ Hin); simpl in Htop; lia.
      * rewrite Forall_forall in Hrest; specialize (Hrest _ Hin); simpl in Hrest; lia.
  - rewrite length_firstn, (Permutation_length (sort_desc_perm scored)).
    unfold scored; now rewrite length_map.
Qed.

Lemma extractRelevantContent_top3_witness :
  exists sel rest,
    extractRelevantContent ["Classical computers use bits."; "Quantum computers use qubits."]
      "quantum computers"
    = join blank_line (map sc_paragraph sel) /\
    Permutation (sel ++ rest)
      (map (fun p => {| sc_paragraph := trim p;
                        sc_score := score (queryWords "quantum computers") p |})
         ["Classical computers use bits."; "Quantum computers use qubits."]) /\
    length sel = Nat.min 3 2 /\
    StronglySorted (fun a b => sc_score b <= sc_score a) sel /\
    Forall (fun x => Forall (fun y => sc_score y <= sc_score x) rest) sel.
Proof.
  apply extractRelevantContent_top3.
  exists "Quantum computers use qubits."; split; [simpl; auto|].
  apply Nat.ltb_lt; vm_compute; reflexivity.
Defined.

Lemma draw_range (s : St) (k : Z) (s' : St) : draw s = (Ok k, s') -> (0 <= k < two53)%Z.
Proof.
  unfold draw; destruct (st_rng s) as [|x xs]; intros H; injection H as <- _.
  - unfold two53; lia.
  - apply Z.mod_pos_bound; unfold two53; lia.
Qed.

Lemma rand_index_lt (n : nat) (s : St) (i : nat) (s' : St) :
  0 < n -> rand_index n s = (Ok i, s') -> i < n.
Proof.
  intros Hn H; unfold rand_index in H.
  apply bind_ok_inv in H as (k & s1 & Hk & H); injection H as <- _.
  apply draw_range in Hk.
  assert (Hp : (0 < two53)%Z) by (unfold two53; lia).
  assert (Hd : (k * Z.of_nat n / two53 < Z.of_nat n)%Z).
  { apply Z.div_lt_upper_bound; [exact Hp|]. nia. }
  assert (H0 : (0 <= k * Z.of_nat n / two53)%Z) by (apply Z.div_pos; lia).
  lia.
Qed.

Lemma rephrase_faithful (x : string) (s : St) :
  exists y s', rephrase_sentence x s = (Ok y, s') /\ rephrasing_of x y.
Proof.
  unfold rephrase_sentence.
  destruct (pure_rng_rand_gt 7 10 s) as (b & s1 & E1 & _).
  rewrite (bind_ok _ _ _ _ _ E1).
  assert (Hbody : exists body s2,
            (if b then i <- rand_index (length sentenceConnectors) ;;
                       ret (nth i sentenceConnectors EmptyString ++ toLowerCase (trim x))
             else ret (trim x)) s1 = (Ok body, s2) /\
            (body = trim x \/ exists c, In c sentenceConnectors /\ body = c ++ toLowerCase (trim x))).
  { destruct b.
    - destruct (pure_rng_rand_index (length sentenceConnectors) s1) as (i & s2 & E2 & _).
      rewrite (bind_ok _ _ _ _ _ E2).
      eexists; exists s2; split; [reflexivity|right].
      eexists; split; [|reflexivity].
      apply nth_In; refine (rand_index_lt _ _ _ _ _ E2); simpl; lia.
    - eexists; exists s1; split; [reflexivity|left; reflexivity]. }
  destruct Hbody as (body & s2 & E2 & Hb).
  rewrite (bind_ok _ _ _ _ _ E2).
  destruct (100 <? String.length body) eqn:El.
  - destruct (pure_rng_rand_gt 1 2 s2) as (e & s3 & E3 & _).
    rewrite (bind_ok _ _ _ _ _ E3).
    eexists; exists s3; split; [reflexivity|].
    exists body; split; [exact Hb|].
    apply Nat.ltb_lt in El; destruct e; [right; split; [exact El|reflexivity]|left; reflexivity].
  - eexists; exists s2; split; [reflexivity|].
    exists body; split; [exact Hb|left; reflexivity].
Qed.

Lemma mapM_rephrase_faithful (l : list string) (s : St) :
  exists ys s', mapM rephrase_sentence l s = (Ok ys, s') /\ Forall2 rephrasing_of l ys.
Proof.
  revert s; induction l as [|x l IH]; intros s; simpl.
  - exists [], s; split; [reflexivity|constructor].
  - destruct (rephrase_faithful x s) as (y & s1 & E1 & Hy).
    rewrite (bind_ok _ _ _ _ _ E1).
    destruct (IH s1) as (ys & s2 & E2 & Hys).
    rewrite (bind_ok _ _ _ _ _ E2).
    exists (y :: ys), s2; split; [reflexivity|constructor; assumption].
Qed.

(** Conversational rewrite (X17): [makeContentConversational] never adds
    content of its own beyond fixed phrases: its output joins, with one of
    the five fixed separators, one piece per sentence among the first four
    sentences (of more than 10 characters once trimmed) of the passage,
    each piece being that trimmed sentence, or a fixed connector followed by
    it lower-cased, possibly wrapped in [**]. *)
Theorem makeContentConversational_faithful (content : string) (qt : QuestionType) (s : St) :
  exists out s' pieces,
    makeContentConversational content qt s = (Ok out, s') /\
    Forall2 rephrasing_of
      (firstn 4 (filter (fun x => 10 <? String.length (trim x))
                        (split_runs is_sentence_end content))) pieces /\
    exists sep, In sep joinConnectors /\ out = join sep pieces.
Proof.
  unfold makeContentConversational; cbv zeta.
  match goal with
  | |- context [mapM rephrase_sentence ?l] =>
      destruct (mapM_rephrase_faithful l s) as (ys & s1 & E1 & Hys)
  end.
  rewrite (bind_ok _ _ _ _ _ E1).
  destruct (pure_rng_rand_index (length joinConnectors) s1) as (i & s2 & E2 & _).
  rewrite (bind_ok _ _ _ _ _ E2).
  eexists; exists s2, ys; split; [reflexivity|split; [exact Hys|]].
  eexists; split; [|reflexivity].
  apply nth_In; refine (rand_index_lt _ _ _ _ _ E2); simpl; lia.
Qed.

(** Chat hook (X18): when the handler's answer is unusable and the direct
    search request fails or finds nothing, the message added is the
    no-result text quoting the question, without metadata: a Wikipedia
    outage is shown as an absence of results, not as the connection
    apology. *)
Theorem chat_outage_no_result (E : Chat.ClientEnv) (q : string) (s : St) :
  trim q <> EmptyString ->
  cp_success (Chat.ce_process E q) = false ->
  (exists m, Chat.ce_search E q 3 = Rejected m) \/
  (exists ok status, Chat.ce_search E q 3 = Responded ok status []) ->
  exists t s', Chat.sendMessage_reply E q s
    = (Ok (Some {| Chat.reply_text := t; Chat.reply_meta := None |}), s')
    /\ includes t (dq ++ q ++ dq) = true.
Proof.
  intros Hq Hp Hs.
  assert (Hd : Chat.searchDirect (Chat.ce_search E) q 3 = []).
  { unfold Chat.searchDirect; destruct Hs as [(m & ->) | (ok & st & ->)]; reflexivity. }
  destruct (no_result_quotes q s) as (t & s' & Et & Hi & _).
  exists t, s'; split; [|exact Hi].
  unfold Chat.sendMessage_reply; apply String.eqb_neq in Hq; rewrite Hq.
  unfold catch; rewrite Hp, Hd.
  unfold bind at 1; rewrite Et; reflexivity.
Qed.

Lemma chat_outage_no_result_witness :
  exists t s', Chat.sendMessage_reply
                 {| Chat.ce_process := client_processQuestion (process_route O_down []);
                    Chat.ce_search := w_search W_no_pages;
                    Chat.ce_content := w_article W_no_pages |} "Who was Einstein?" st0
    = (Ok (Some {| Chat.reply_text := t; Chat.reply_meta := None |}), s')
    /\ includes t (dq ++ "Who was Einstein?" ++ dq) = true.
Proof.
  apply chat_outage_no_result; [vm_compute; discriminate | vm_compute; reflexivity |].
  right; exists true, 200; reflexivity.
Defined.

(** Client [getArticle] against the route (X19): the client returns the
    route's article when the route succeeds; when the route fails it
    answers 400 or 404, and the client's error is "HTTP error! status: "
    followed by that status (so a missing article is reported as status 404,
    not as "Article not found"). *)
Theorem client_getArticle_reports_status (W : RouteOracle) (t : string) :
  let r := fst (articleRoute W (Some t)) in
  (ar_success r = false -> ar_status r = 400 \/ ar_status r = 404) /\
  client_getArticle (fun x => fst (articleRoute W x)) t
  = if ar_success r
    then {| ca_success := true; ca_article := ar_article r; ca_error := None |}
    else {| ca_success := false; ca_article := None;
            ca_error := Some (inr ("HTTP error! status: " ++ nat_to_dec (ar_status r))) |}.
Proof.
  cbv zeta; unfold client_getArticle, articleRoute, parse_article.
  destruct (String.length t =? 0); [split; [auto|reflexivity]|].
  destruct (w_article W t) as [m|ok st pages]; [split; [auto|reflexivity]|].
  destruct ok; cbn [negb]; [|split; [auto|reflexivity]].
  destruct pages as [|[pid page] rest]; [split; [auto|reflexivity]|].
  destruct (String.eqb pid "-1");
    (split; [intros Hs; cbn in Hs |- *; try discriminate; auto | reflexivity]).
Qed.
